(** * The functional AdamW step of [optimizers/functional/adamw.py]

    A shallow embedding of [adamw] and of the part of Python and NumPy it
    runs on: binary64 scalars behind an interface, n-dimensional arrays with
    NumPy's broadcasting, Python lists and dicts as objects of a store, and
    exceptions that leave the store as it was when they were raised. *)

From Stdlib Require Import ZArith Floats.
From stdpp Require Import gmap strings list.

Set Default Proof Using "Type".

(** ** Exceptions and outcomes *)

(** The exceptions the statements of [adamw] can raise: a missing key of the
    state dict, an index past the end of a moment list, shapes NumPy cannot
    broadcast, a subscript on an object of the wrong kind, and the two
    errors of Python's float power. The source defines no exception class
    of its own and has no [raise] statement. *)
Inductive exn :=
  | KeyError (key : string)
  | IndexError
  | ValueError
  | TypeError
  | ZeroDivisionError
  | OverflowError.

Inductive result (A : Type) :=
  | Ok (a : A)
  | Raise (e : exn).
Arguments Ok {A} a.
Arguments Raise {A} e.

Definition result_bind {A B} (r : result A) (k : A → result B) : result B :=
  match r with
  | Ok a => k a
  | Raise e => Raise e
  end.

(** ** Scalars

    Python floats and the elements of a float64 array are the same binary64
    numbers. The operations [adamw] applies to them are kept behind an
    interface; [fpow] is Python's [float ** int], the only scalar operation
    of the source that can raise, and [fsqr] is the elementwise [x ** 2] of
    NumPy. The source compares no two scalars. *)
Class Float64 (F : Type) := {
  fzero : F;
  fone : F;
  fadd : F → F → F;
  fsub : F → F → F;
  fmul : F → F → F;
  fdiv : F → F → F;
  fsqrt : F → F;
  fsqr : F → F;
  fpow : F → Z → result F;
  (** CPython answers [1.0] for the exponent 0 whatever the base. *)
  fpow_0 : ∀ x, fpow x 0 = Ok fone;
}.

(** ** NumPy arrays *)

Module np.
Section ndarray.
Context {F : Type} `{Float64 F}.

(** An array is its shape (outermost dimension first) and its elements in
    row-major order. *)
Record ndarray := NdArray { shape : list nat; data : list F }.

Definition size (s : list nat) : nat := foldr Nat.mul 1 s.

Definition wf (a : ndarray) : Prop := length (data a) = size (shape a).

Definition zeros_like (a : ndarray) : ndarray :=
  NdArray (shape a) (replicate (size (shape a)) fzero).

(** Broadcasting. Shapes are aligned on their last dimension; two
    dimensions are compatible when they are equal or one of them is 1.
    The functions below work on reversed shapes (innermost first). *)
Definition bc_dim (d1 d2 : nat) : option nat :=
  if d1 =? d2 then Some d1
  else if d1 =? 1 then Some d2
  else if d2 =? 1 then Some d1
  else None.

Fixpoint bc_rev (r1 r2 : list nat) : option (list nat) :=
  match r1, r2 with
  | [], r => Some r
  | r, [] => Some r
  | d1 :: r1', d2 :: r2' =>
      match bc_dim d1 d2, bc_rev r1' r2' with
      | Some d, Some r => Some (d :: r)
      | _, _ => None
      end
  end.

Definition broadcast_shapes (s1 s2 : list nat) : option (list nat) :=
  reverse <$> bc_rev (reverse s1) (reverse s2).

(** The position, in the row-major data of an operand of reversed shape
    [ra], of the element that lands at flat position [k] of a result of
    reversed shape [rs]: a dimension of extent 1, or one the operand lacks,
    always reads index 0. *)
Fixpoint bc_index (rs ra : list nat) (k : nat) : nat :=
  match ra, rs with
  | da :: ra', d :: rs' =>
      (if da =? 1 then 0 else k mod d) + da * bc_index rs' ra' (k / d)
  | _, _ => 0
  end.

Definition bc_get (s : list nat) (a : ndarray) (k : nat) : F :=
  default fzero (data a !! bc_index (reverse s) (reverse (shape a)) k).

(** [a ∘ b] for two arrays: [ValueError] when the shapes do not broadcast. *)
Definition broadcast2 (f : F → F → F) (a b : ndarray) : result ndarray :=
  match broadcast_shapes (shape a) (shape b) with
  | None => Raise ValueError
  | Some s =>
      Ok (NdArray s ((λ k, f (bc_get s a k) (bc_get s b k)) <$> seq 0 (size s)))
  end.

Definition add : ndarray → ndarray → result ndarray := broadcast2 fadd.
Definition subtract : ndarray → ndarray → result ndarray := broadcast2 fsub.
Definition divide : ndarray → ndarray → result ndarray := broadcast2 fdiv.

(** A Python float against an array: the scalar broadcasts, the shape is
    the array's. *)
Definition ufunc (f : F → F) (a : ndarray) : ndarray :=
  NdArray (shape a) (f <$> data a).

Definition rmul (c : F) (a : ndarray) : ndarray := ufunc (fmul c) a.
Definition div_scalar (a : ndarray) (c : F) : ndarray := ufunc (λ x, fdiv x c) a.
Definition add_scalar (a : ndarray) (c : F) : ndarray := ufunc (λ x, fadd x c) a.
Definition sqrt (a : ndarray) : ndarray := ufunc fsqrt a.
Definition square (a : ndarray) : ndarray := ufunc fsqr a.

(** Same shape: the elementwise operation, position by position. *)
Definition zip (f : F → F → F) (a b : ndarray) : ndarray :=
  NdArray (shape a) (zip_with f (data a) (data b)).
End ndarray.
Arguments ndarray F : clear implicits.
End np.

(** ** The Python store

    Lists and dicts are objects: a name holds a reference, and an exception
    does not undo the assignments made before it. The arrays themselves are
    never written in place by [adamw] (every operation builds a new array),
    so a list holds its arrays by value. *)
Module py.
Abbreviation loc := nat.

Section store.
Context {F : Type}.

Inductive obj :=
  | List (items : list (np.ndarray F))
  | Dict (entries : gmap string loc).

Abbreviation heap := (gmap loc obj).

(** A computation runs from a store to an outcome and the store it left. *)
Definition M (A : Type) : Type := heap → result A * heap.

Definition ret {A} (a : A) : M A := λ h, (Ok a, h).

Definition bind {A B} (c : M A) (k : A → M B) : M B := λ h,
  match c h with
  | (Ok a, h') => k a h'
  | (Raise e, h') => (Raise e, h')
  end.

Definition lift {A} (r : result A) : M A := λ h, (r, h).

Definition alloc (o : obj) : M loc := λ h,
  let l := fresh (dom h) in (Ok l, <[l := o]> h).

(** [d[key]] *)
Definition dict_getitem (d : loc) (key : string) : M loc := λ h,
  match h !! d with
  | Some (Dict entries) =>
      match entries !! key with
      | Some l => (Ok l, h)
      | None => (Raise (KeyError key), h)
      end
  | _ => (Raise TypeError, h)
  end.

(** [d[key] = l] *)
Definition dict_setitem (d : loc) (key : string) (l : loc) : M unit := λ h,
  match h !! d with
  | Some (Dict entries) => (Ok (), <[d := Dict (<[key := l]> entries)]> h)
  | _ => (Raise TypeError, h)
  end.

(** [l[i]] for [i >= 0] *)
Definition list_getitem (l : loc) (i : nat) : M (np.ndarray F) := λ h,
  match h !! l with
  | Some (List items) =>
      match items !! i with
      | Some a => (Ok a, h)
      | None => (Raise IndexError, h)
      end
  | _ => (Raise TypeError, h)
  end.

(** [l[i] = a] for [i >= 0]: an index past the end raises, the list never
    grows. *)
Definition list_setitem (l : loc) (i : nat) (a : np.ndarray F) : M unit := λ h,
  match h !! l with
  | Some (List items) =>
      if decide (i < length items)
      then (Ok (), <[l := List (<[i := a]> items)]> h)
      else (Raise IndexError, h)
  | _ => (Raise TypeError, h)
  end.
End store.
Arguments obj F : clear implicits.
Arguments M F A : clear implicits.
Abbreviation heap F := (gmap loc (obj F)).
End py.

#[export] Instance M_ret {F} : MRet (py.M F) := @py.ret F.
#[export] Instance M_bind {F} : MBind (py.M F) := λ A B k c, py.bind c k.

(** ** [adamw]

    [params] and [grads] are the contents of the two argument lists at the
    call: [zip] reads index [i] of either list at the start of round [i],
    and the only list writes of a call are the item assignments to
    [state["m"]] and [state["v"]] at the index just read, so an argument
    list is seen as it was at the call even if it also is a moment list.
    The arrays are float64, the scalar hyperparameters are Python floats,
    [t] is a Python int, and [state] is [None] or a reference to the state
    dict. *)

Section adamw.
Context {F : Type} `{Float64 F}.

Abbreviation ndarray := (np.ndarray F).

(** [state = { "m": [zeros_like(p) for p in params],
               "v": [zeros_like(p) for p in params] }] *)
Definition fresh_state (params : list ndarray) : py.M F py.loc :=
  m0 ← py.alloc (py.List (np.zeros_like <$> params));
  v0 ← py.alloc (py.List (np.zeros_like <$> params));
  py.alloc (py.Dict (<["m" := m0]> (<["v" := v0]> ∅))).

Section loop.
Variables (learning_rate beta1 beta2 epsilon : F) (t : Z) (weight_decay : F).
Variables m v : py.loc.

(** The body of the [for] statement, lines 50 to 60, for the pair
    [(param, grad)] at index [i]. *)
Definition body (i : nat) (param grad : ndarray) : py.M F ndarray :=
  m_i ← py.list_getitem m i;
  new_m ← py.lift (np.add (np.rmul beta1 m_i)
                          (np.rmul (fsub fone beta1) grad));
  py.list_setitem m i new_m;;
  v_i ← py.list_getitem v i;
  new_v ← py.lift (np.add (np.rmul beta2 v_i)
                          (np.rmul (fsub fone beta2) (np.square grad)));
  py.list_setitem v i new_v;;
  m_i ← py.list_getitem m i;
  b1t ← py.lift (fpow beta1 t);
  let m_hat := np.div_scalar m_i (fsub fone b1t) in
  v_i ← py.list_getitem v i;
  b2t ← py.lift (fpow beta2 t);
  let v_hat := np.div_scalar v_i (fsub fone b2t) in
  adaptive ← py.lift (np.divide (np.rmul learning_rate m_hat)
                                (np.add_scalar (np.sqrt v_hat) epsilon));
  param_update ← py.lift
    (np.add adaptive (np.rmul (fmul learning_rate weight_decay) param));
  py.lift (np.subtract param param_update).

(** [for i, (param, grad) in enumerate(zip(params, grads))]: [zip] stops
    at the shorter list; [updated_params] grows by one array a round. *)
Fixpoint for_loop (pairs : list (ndarray * ndarray)) (i : nat)
    (updated_params : list ndarray) : py.M F (list ndarray) :=
  match pairs with
  | [] => mret updated_params
  | (param, grad) :: rest =>
      updated_param ← body i param grad;
      for_loop rest (S i) (updated_params ++ [updated_param])
  end.
End loop.

Definition adamw (params grads : list ndarray) (learning_rate : F)
    (state : option py.loc) (beta1 beta2 epsilon : F) (t : Z)
    (weight_decay : F) : py.M F (list ndarray * py.loc) :=
  state ← match state with
          | None => fresh_state params
          | Some s => mret s
          end;
  m ← py.dict_getitem state "m";
  v ← py.dict_getitem state "v";
  updated_params ←
    for_loop learning_rate beta1 beta2 epsilon t weight_decay m v
             (zip params grads) 0 [];
  py.dict_setitem state "m" m;;
  py.dict_setitem state "v" v;;
  mret (updated_params, state).
End adamw.

(** ** The call seen from the two moment lists

    When ["m"] and ["v"] of the state name two different lists, a call
    reads and writes nothing of the store but those two lists. The
    functions below are [body], [for_loop] and [adamw] again over the
    contents [(ms, vs)] of the two lists; [adamw_refines] relates them to
    the store version. *)

#[export] Instance result_ret : MRet result := @Ok.
#[export] Instance result_mbind : MBind result := λ A B k r, result_bind r k.

Section pure.
Context {F : Type} `{Float64 F}.
Variables (learning_rate beta1 beta2 epsilon : F) (t : Z) (weight_decay : F).

Abbreviation ndarray := (np.ndarray F).
Abbreviation moments := (list ndarray * list ndarray)%type.

(** Line 50 and line 51, right-hand sides. *)
Definition new_m (m_i grad : ndarray) : result ndarray :=
  np.add (np.rmul beta1 m_i) (np.rmul (fsub fone beta1) grad).

Definition new_v (v_i grad : ndarray) : result ndarray :=
  np.add (np.rmul beta2 v_i) (np.rmul (fsub fone beta2) (np.square grad)).

(** Lines 53 to 60, from the moments just stored. *)
Definition new_param (m_i v_i param : ndarray) : result ndarray :=
  b1t ← fpow beta1 t;
  let m_hat := np.div_scalar m_i (fsub fone b1t) in
  b2t ← fpow beta2 t;
  let v_hat := np.div_scalar v_i (fsub fone b2t) in
  adaptive ← np.divide (np.rmul learning_rate m_hat)
                       (np.add_scalar (np.sqrt v_hat) epsilon);
  param_update ←
    np.add adaptive (np.rmul (fmul learning_rate weight_decay) param);
  np.subtract param param_update.

Definition body_pure (i : nat) (param grad : ndarray) (mv : moments)
    : result ndarray * moments :=
  match mv.1 !! i with
  | None => (Raise IndexError, mv)
  | Some m_i =>
      match new_m m_i grad with
      | Raise e => (Raise e, mv)
      | Ok nm =>
          let ms' := <[i := nm]> mv.1 in
          match mv.2 !! i with
          | None => (Raise IndexError, (ms', mv.2))
          | Some v_i =>
              match new_v v_i grad with
              | Raise e => (Raise e, (ms', mv.2))
              | Ok nv => (new_param nm nv param, (ms', <[i := nv]> mv.2))
              end
          end
      end
  end.

Fixpoint loop_pure (pairs : list (ndarray * ndarray)) (i : nat)
    (updated_params : list ndarray) (mv : moments)
    : result (list ndarray) * moments :=
  match pairs with
  | [] => (Ok updated_params, mv)
  | (param, grad) :: rest =>
      match body_pure i param grad mv with
      | (Ok updated_param, mv') =>
          loop_pure rest (S i) (updated_params ++ [updated_param]) mv'
      | (Raise e, mv') => (Raise e, mv')
      end
  end.

Definition adamw_pure (params grads : list ndarray) (mv : moments)
    : result (list ndarray) * moments :=
  loop_pure (zip params grads) 0 [] mv.

(** The store [h] with the two moment lists, at [lm] and [lv], holding
    [mv]. *)
Definition with_moments (lm lv : py.loc) (mv : moments) (h : py.heap F)
    : py.heap F :=
  <[lv := py.List mv.2]> (<[lm := py.List mv.1]> h).

(** What a call on the state dict [s] answers in a store, given what the
    loop answered over the two lists. *)
Definition outcome (s : py.loc) (r : result (list ndarray))
    : result (list ndarray * py.loc) :=
  updated_params ← r; mret (updated_params, s).

(** *** The update rule, element by element, as the specification words it

    [m = beta1*m + (1-beta1)*grad], [v = beta2*v + (1-beta2)*grad^2],
    [m_hat = m/(1-beta1^t)], [v_hat = v/(1-beta2^t)],
    [update = learning_rate*m_hat/(sqrt(v_hat)+epsilon)
              + learning_rate*weight_decay*param],
    [updated_param = param - update]; [b1t] and [b2t] stand for
    [beta1^t] and [beta2^t]. *)
Definition rule_m (m g : F) : F :=
  fadd (fmul beta1 m) (fmul (fsub fone beta1) g).

Definition rule_v (v g : F) : F :=
  fadd (fmul beta2 v) (fmul (fsub fone beta2) (fsqr g)).

Definition rule_update (b1t b2t : F) (m v p : F) : F :=
  let m_hat := fdiv m (fsub fone b1t) in
  let v_hat := fdiv v (fsub fone b2t) in
  fadd (fdiv (fmul learning_rate m_hat) (fadd (fsqrt v_hat) epsilon))
       (fmul (fmul learning_rate weight_decay) p).

Definition rule_param (b1t b2t : F) (m v p : F) : F :=
  fsub p (rule_update b1t b2t m v p).

(** The rule over whole arrays of one shape. *)
Definition step_m (m_i grad : ndarray) : ndarray := np.zip rule_m m_i grad.
Definition step_v (v_i grad : ndarray) : ndarray := np.zip rule_v v_i grad.
Definition step_param (b1t b2t : F) (m_i v_i param : ndarray) : ndarray :=
  np.NdArray (np.shape param)
    (zip_with (λ mv p, rule_param b1t b2t mv.1 mv.2 p)
              (zip (np.data m_i) (np.data v_i)) (np.data param)).

(** A parameter, its gradient and its two moment entries are arrays of
    one shape. *)
Definition aligned (param grad m_i v_i : ndarray) : Prop :=
  np.wf param ∧ np.wf grad ∧ np.wf m_i ∧ np.wf v_i ∧
  np.shape grad = np.shape param ∧
  np.shape m_i = np.shape param ∧
  np.shape v_i = np.shape param.

(** The first [n] indices exist in all four lists and are aligned. *)
Definition aligned_upto (n : nat) (params grads ms vs : list ndarray) : Prop :=
  ∀ i, i < n →
    ∃ p g m v, params !! i = Some p ∧ grads !! i = Some g ∧
               ms !! i = Some m ∧ vs !! i = Some v ∧ aligned p g m v.

(** In the store [h] the object [s] is a state dict whose ["m"] and ["v"]
    are two different lists, [lm] holding [ms] and [lv] holding [vs]. *)
Definition holds_state (h : py.heap F) (s lm lv : py.loc)
    (ms vs : list ndarray) : Prop :=
  ∃ entries, h !! s = Some (py.Dict entries) ∧
    entries !! "m" = Some lm ∧ entries !! "v" = Some lv ∧ lm ≠ lv ∧
    h !! lm = Some (py.List ms) ∧ h !! lv = Some (py.List vs).
End pure.

(** ** Binary64

    The interface at Rocq's primitive floats, which are IEEE 754 binary64
    with round-to-nearest-even, as Python's and NumPy's.

    [float_pow] follows CPython's [float.__pow__] at an [int] exponent,
    branch by branch. The exponent is first converted to a double
    ([int_as_double]): an int too large for one raises OverflowError, and
    one beyond 2^53 is rounded. Then come the special cases of
    [floatobject.c], in its order: exponent zero, a NaN base, an infinite
    base, a zero base (ZeroDivisionError at a negative exponent), a base of
    absolute value one. What remains goes to the C library's [pow], whose
    overflow CPython turns into OverflowError and whose underflow it lets
    through. The C library promises [pow] to within one unit in the last
    place, not bit for bit; [pow_finite] is the correctly rounded power,
    computed from the exact integer power of the mantissa. *)
Definition int_as_double (n : Z) : option Z :=
  match binary_normalize prec emax n 0 false with
  | S754_zero _ => Some 0%Z
  | S754_finite s m e => Some (cond_Zopp s (Z.shiftl (Zpos m) e))
  | _ => None
  end.

Definition pow_finite (m : positive) (e : Z) (w : Z) : spec_float :=
  match w with
  | Zpos k => binary_normalize prec emax (Zpos (m ^ k)) (e * w) false
  | Zneg k =>
      SFdiv prec emax (S754_finite false 1 0)
        (S754_finite false (m ^ k) (e * Zpos k))
  | Z0 => S754_finite false 1 0
  end.

Definition float_pow (x : float) (n : Z) : result float :=
  match int_as_double n with
  | None => Raise OverflowError
  | Some Z0 => Ok 1%float
  | Some w =>
      match Prim2SF x with
      | S754_nan => Ok x
      | S754_infinity s =>
          Ok (if (0 <? w)%Z then (if Z.odd w then x else abs x)
              else (if (Z.odd w && s)%bool then (-0)%float else 0%float))
      | S754_zero s =>
          if (w <? 0)%Z then Raise ZeroDivisionError
          else Ok (if Z.odd w then x else 0%float)
      | S754_finite s m e =>
          let negate := (s && Z.odd w)%bool in
          if (abs x =? 1)%float
          then Ok (if negate then (-1)%float else 1%float)
          else
            let y := SF2Prim (pow_finite m e w) in
            if is_infinity y then Raise OverflowError
            else Ok (if negate then (- y)%float else y)
      end
  end.

#[export] Instance binary64 : Float64 float := {|
  fzero := 0%float;
  fone := 1%float;
  fadd := PrimFloat.add;
  fsub := PrimFloat.sub;
  fmul := PrimFloat.mul;
  fdiv := PrimFloat.div;
  fsqrt := PrimFloat.sqrt;
  fsqr := λ x, PrimFloat.mul x x;
  fpow := float_pow;
  fpow_0 := λ _, eq_refl;
|}.

(** The two exceptions of [float ** int]. *)
Lemma float_pow_raises (x : float) (n : Z) (e : exn) :
  float_pow x n = Raise e → e = ZeroDivisionError ∨ e = OverflowError.
Proof.
  unfold float_pow. intros Hr.
  repeat case_match; simplify_eq; auto.
Qed.

(** ** Binary64 arithmetic at zero

    What the rule of [adamw] computes from zero moments and a zero gradient,
    derived from the specification of the operations of binary64
    ([FloatAxioms]) and of its rounding ([SpecFloat]). The one fact that
    needs the rounding itself is that [1.0 - x] is a positive number when
    [x < 1.0], and a finite one when [0.0 < x < 1.0]. *)

(** *** Rounding a positive number *)

Section rounding.
Local Open Scope Z_scope.

Lemma digits2_pos_size p : digits2_pos p = Pos.size p.
Proof. induction p; simpl; congruence. Qed.

Lemma digits2_pos_gt p : Zpos p < 2 ^ Zpos (digits2_pos p).
Proof.
  rewrite digits2_pos_size. pose proof (Pos.size_gt p) as H.
  apply Pos2Z.pos_lt_pos in H. by rewrite Pos2Z.inj_pow in H.
Qed.

Lemma digits2_pos_le p : 2 ^ Zpos (digits2_pos p) ≤ 2 * Zpos p.
Proof.
  rewrite digits2_pos_size. pose proof (Pos.size_le p) as H.
  apply Pos2Z.pos_le_pos in H. by rewrite Pos2Z.inj_pow in H.
Qed.

Lemma digits2_pos_bound p k : 0 ≤ k → Zpos p < 2 ^ k → Zpos (digits2_pos p) ≤ k.
Proof.
  intros Hk Hp. pose proof (digits2_pos_le p) as Hd.
  destruct (Z.le_gt_cases (Zpos (digits2_pos p)) k) as [|Hgt]; [done|].
  assert (2 ^ (k + 1) ≤ 2 ^ Zpos (digits2_pos p)) as Hm
    by (apply Z.pow_le_mono_r; lia).
  rewrite Z.pow_add_r in Hm by lia. lia.
Qed.

Lemma shr_1_m r : 0 ≤ shr_m r → shr_m (shr_1 r) = Z.div2 (shr_m r).
Proof. destruct r as [[|[p|p|]|p] b s]; simpl; try done; lia. Qed.

Lemma iter_pos_shr_1 n r :
  0 ≤ shr_m r → shr_m (SpecFloat.iter_pos shr_1 n r) = Z.shiftr (shr_m r) (Zpos n).
Proof.
  revert r. induction n as [n IH|n IH|]; intros r Hr; simpl SpecFloat.iter_pos.
  - assert (0 ≤ shr_m (shr_1 r)) as H1.
    { rewrite shr_1_m by done. rewrite Z.div2_spec. by apply Z.shiftr_nonneg. }
    assert (0 ≤ shr_m (SpecFloat.iter_pos shr_1 n (shr_1 r))) as H2.
    { rewrite IH by done. by apply Z.shiftr_nonneg. }
    rewrite IH, IH, shr_1_m, Z.div2_spec, !Z.shiftr_shiftr by lia.
    f_equal. lia.
  - assert (0 ≤ shr_m (SpecFloat.iter_pos shr_1 n r)) as H2.
    { rewrite IH by done. by apply Z.shiftr_nonneg. }
    rewrite IH, IH, !Z.shiftr_shiftr by lia. f_equal. lia.
  - rewrite shr_1_m by done. by rewrite Z.div2_spec.
Qed.

Lemma iter_xO p d : Zpos (Pos.iter xO p d) = Zpos p * 2 ^ Zpos d.
Proof.
  induction d as [|d IH] using Pos.peano_ind.
  - simpl. lia.
  - rewrite Pos.iter_succ, Pos2Z.inj_xO, IH, Pos2Z.inj_succ, Z.pow_succ_r by lia.
    lia.
Qed.

Lemma round_nearest_even_bounds m l :
  m ≤ round_nearest_even m l ≤ m + 1.
Proof.
  unfold round_nearest_even. destruct l as [|[]]; try lia.
  destruct (Z.even m); lia.
Qed.

(** One renormalisation of a positive mantissa: the mantissa stays positive,
    the exponent stays at or above [emin], and the value does not grow. *)
Lemma shr_fexp_pos q e :
  SpecFloat.emin prec emax ≤ e →
  ∃ mrs e2,
    shr_fexp prec emax (Zpos q) e loc_Exact = (mrs, e2) ∧
    1 ≤ shr_m mrs ∧
    e2 = Z.max e (fexp prec emax (Zpos (digits2_pos q) + e)) ∧
    shr_m mrs < 2 ^ (Zpos (digits2_pos q) + e - e2) ∧
    (e2 = e → mrs = Build_shr_record (Zpos q) false false).
Proof.
  intros He. unfold shr_fexp, shr. cbn [Zdigits2 shr_record_of_loc].
  set (d := Zpos (digits2_pos q)).
  pose proof (digits2_pos_gt q) as Hgt. pose proof (digits2_pos_le q) as Hle.
  fold d in Hgt, Hle.
  assert (0 < d) as Hd by (unfold d; lia).
  destruct (fexp prec emax (d + e) - e) as [|k|k] eqn:Hn.
  - eexists _, _. split; [done|]. cbn [shr_m]. split; [lia|].
    split; [lia|]. split; [|done].
    replace (d + e - e) with d by lia. done.
  - eexists _, _. split; [done|].
    rewrite iter_pos_shr_1 by (cbn; lia). cbn [shr_m].
    rewrite Z.shiftr_div_pow2 by lia.
    assert (Zpos k < d) as Hkd.
    { unfold fexp, SpecFloat.emin, prec, emax in *. lia. }
    assert (2 ^ d = 2 ^ Zpos k * 2 ^ (d - Zpos k)) as Hsplit.
    { rewrite <- Z.pow_add_r by lia. f_equal. lia. }
    assert (0 < 2 ^ Zpos k) as Hpk by (apply Z.pow_pos_nonneg; lia).
    assert (2 ^ 1 ≤ 2 ^ (d - Zpos k)) as H1 by (apply Z.pow_le_mono_r; lia).
    split.
    { apply Z.div_le_lower_bound; [done|]. nia. }
    split; [lia|]. split.
    { replace (d + e - (e + Zpos k)) with (d - Zpos k) by lia.
      apply Z.div_lt_upper_bound; [done|]. lia. }
    intros ?. lia.
  - eexists _, _. split; [done|]. cbn [shr_m]. split; [lia|].
    split; [lia|]. split; [|done].
    replace (d + e - e) with d by lia. done.
Qed.

(** Rounding a positive number at an exponent not below [emin] gives a
    positive float, finite unless the number is large. *)
Lemma binary_round_aux_pos sx m e :
  SpecFloat.emin prec emax ≤ e →
  ∃ m' e',
    binary_round_aux prec emax sx (Zpos m) e loc_Exact
      = (if e' <=? emax - prec then S754_finite sx m' e' else S754_infinity sx) ∧
    (Zpos (digits2_pos m) + e ≤ 900 → e' ≤ 900).
Proof.
  intros He. unfold binary_round_aux.
  destruct (shr_fexp_pos m e He) as (mrs & e2 & -> & Hm1 & He2 & Hb & Hid).
  pose proof (round_nearest_even_bounds (shr_m mrs) (loc_of_shr_record mrs))
    as Hr.
  destruct (round_nearest_even (shr_m mrs) (loc_of_shr_record mrs))
    as [|q|q] eqn:Hq; [lia| |lia].
  assert (SpecFloat.emin prec emax ≤ e2) as He2' by lia.
  destruct (shr_fexp_pos q e2 He2') as (mrs2 & e3 & -> & Hm2 & He3 & _ & _).
  destruct (shr_m mrs2) as [|m'|m'] eqn:Hm'; [lia| |lia].
  exists m', e3. split; [done|].
  intros HD. 
  set (d := Zpos (digits2_pos m)) in *.
  assert (0 < d) as Hd by (unfold d; lia).
  assert (e2 ≤ 900) as He2b.
  { unfold fexp, SpecFloat.emin, prec, emax in *. lia. }
  assert (0 ≤ d + e - e2) as Hnn.
  { unfold fexp, SpecFloat.emin, prec, emax in *. lia. }
  assert (Zpos (digits2_pos q) ≤ d + e - e2 + 1) as Hdq.
  { destruct (Z.eq_dec e2 e) as [Heq|Hne].
    - rewrite (Hid Heq) in Hq. cbn in Hq. injection Hq as <-. fold d. lia.
    - apply digits2_pos_bound; [lia|].
      rewrite Z.pow_add_r by lia. change (2 ^ 1) with 2. lia. }
  unfold fexp, SpecFloat.emin, prec, emax in *. lia.
Qed.

Lemma binary_round_pos sx m e :
  SpecFloat.emin prec emax ≤ e →
  ∃ m' e',
    binary_round prec emax sx m e
      = (if e' <=? emax - prec then S754_finite sx m' e' else S754_infinity sx) ∧
    (Zpos (digits2_pos m) + e ≤ 900 → e' ≤ 900).
Proof.
  intros He. unfold binary_round, shl_align.
  destruct (fexp prec emax (Zpos (digits2_pos m) + e) - e) as [|k|k] eqn:Hk;
    try by apply binary_round_aux_pos.
  destruct (binary_round_aux_pos sx (Pos.iter xO m k)
              (fexp prec emax (Zpos (digits2_pos m) + e)))
    as (m' & e' & Hr & Hb).
  { unfold fexp. lia. }
  exists m', e'. split; [done|]. intros HD. apply Hb.
  pose proof (digits2_pos_gt m) as Hgt.
  assert (Zpos (digits2_pos (Pos.iter xO m k))
          ≤ Zpos (digits2_pos m) + Zpos k) as Hd.
  { apply digits2_pos_bound; [lia|].
    rewrite iter_xO, Z.pow_add_r by lia.
    assert (0 < 2 ^ Zpos k) by (apply Z.pow_pos_nonneg; lia). nia. }
  lia.
Qed.

(** Positive floats, infinity included, and positive finite floats. *)
Definition SF_positive (x : spec_float) : Prop :=
  match x with
  | S754_finite false _ _ | S754_infinity false => True
  | _ => False
  end.

Definition SF_positive_finite (x : spec_float) : Prop :=
  match x with
  | S754_finite false _ _ => True
  | _ => False
  end.

Definition SF_one : spec_float := S754_finite false 4503599627370496 (-52).

Lemma binary_normalize_pos (M e k : Z) :
  0 < M → SpecFloat.emin prec emax ≤ e → M < 2 ^ k → 0 ≤ k →
  ∃ m' e',
    binary_normalize prec emax M e false
      = (if e' <=? emax - prec then S754_finite false m' e'
         else S754_infinity false) ∧
    (k + e ≤ 900 → e' ≤ 900).
Proof.
  intros HM He Hk Hk0. destruct M as [|q|q]; try lia.
  destruct (binary_round_pos false q e He) as (m' & e' & Hr & Hb).
  exists m', e'. split; [exact Hr|].
  intros Hke. apply Hb.
  pose proof (digits2_pos_bound q k Hk0 Hk). lia.
Qed.

Lemma SFsub_finite s1 m1 e1 s2 m2 e2 :
  SFsub prec emax (S754_finite s1 m1 e1) (S754_finite s2 m2 e2)
  = binary_normalize prec emax
      (cond_Zopp s1 (Zpos (fst (shl_align m1 e1 (Z.min e1 e2))))
       - cond_Zopp s2 (Zpos (fst (shl_align m2 e2 (Z.min e1 e2)))))
      (Z.min e1 e2) false.
Proof. reflexivity. Qed.

(** Aligning a mantissa to a lower exponent keeps the value. *)
Lemma shl_align_value m e e' :
  e' ≤ e → Zpos (fst (shl_align m e e')) = Zpos m * 2 ^ (e - e').
Proof.
  intros He. unfold shl_align.
  destruct (e' - e) as [|d|d] eqn:Hd; cbn [fst]; try lia.
  - assert (e - e' = 0) as -> by lia. lia.
  - rewrite iter_xO. f_equal. f_equal. lia.
Qed.

Lemma valid_finite s m e :
  valid_binary (S754_finite s m e) = true →
  SpecFloat.emin prec emax ≤ e ∧ Zpos m < 2 ^ 53.
Proof.
  cbn [SpecFloat.valid_binary]. unfold bounded, canonical_mantissa.
  intros Hv. apply andb_prop in Hv as [Hc _]. apply Z.eqb_eq in Hc.
  pose proof (digits2_pos_gt m) as Hgt.
  assert (Zpos (digits2_pos m) ≤ 53) as Hd
    by (unfold fexp, SpecFloat.emin, prec, emax in Hc; lia).
  split; [unfold fexp in Hc; lia|].
  assert (2 ^ Zpos (digits2_pos m) ≤ 2 ^ 53) by (apply Z.pow_le_mono_r; lia).
  lia.
Qed.

Lemma SFltb_finite_one m e :
  SFltb (S754_finite false m e) SF_one = true →
  e < -52 ∨ e = -52 ∧ Zpos m < 4503599627370496.
Proof.
  intros Hlt.
  assert (match e ?= -52 with
          | Eq => Pos.compare_cont Eq m 4503599627370496
          | Lt => Lt
          | Gt => Gt
          end = Lt) as Hc.
  { revert Hlt. unfold SFltb, SFcompare, SF_one.
    by destruct (match e ?= -52 with Eq => _ | Lt => Lt | Gt => Gt end). }
  clear Hlt. destruct (Z.compare_spec e (-52)) as [He|He|He].
  - right. split; [exact He|exact Hc].
  - left. exact He.
  - discriminate Hc.
Qed.

(** [1.0 - x] for [x < 1.0]: positive, and finite when [x] is positive. *)
Lemma SFsub_one_lt (x : spec_float) :
  valid_binary x = true →
  SFltb x SF_one = true →
  SF_positive (SFsub prec emax SF_one x) ∧
  (SFltb (S754_zero false) x = true →
   SF_positive_finite (SFsub prec emax SF_one x)).
Proof.
  intros Hv Hlt. destruct x as [s|s| |s m e]; try done.
  - by destruct s.
  - apply valid_finite in Hv as [Hemin Hm53].
    unfold SF_one. rewrite SFsub_finite.
    assert (2 ^ 52 = 4503599627370496) as H52 by reflexivity.
    destruct s.
    + split; [|done].
      destruct (binary_normalize_pos
                  (cond_Zopp false
                     (Zpos (fst (shl_align 4503599627370496 (-52)
                                   (Z.min (-52) e))))
                   - cond_Zopp true
                       (Zpos (fst (shl_align m e (Z.min (-52) e)))))
                  (Z.min (-52) e)
                  (Z.max (55 - Z.min (-52) e) (55 + e - Z.min (-52) e)))
        as (m' & e' & -> & _).
      * unfold cond_Zopp. lia.
      * unfold SpecFloat.emin, prec, emax in *. lia.
      * unfold cond_Zopp. rewrite !shl_align_value by lia. rewrite <- H52.
        rewrite <- Z.pow_add_r by lia.
        assert (0 < 2 ^ (e - Z.min (-52) e)) by (apply Z.pow_pos_nonneg; lia).
        assert (2 ^ (52 + (-52 - Z.min (-52) e))
                ≤ 2 ^ (Z.max (55 - Z.min (-52) e) (55 + e - Z.min (-52) e) - 1))
          by (apply Z.pow_le_mono_r; lia).
        assert (2 ^ 53 * 2 ^ (e - Z.min (-52) e)
                ≤ 2 ^ (Z.max (55 - Z.min (-52) e) (55 + e - Z.min (-52) e) - 1)).
        { rewrite <- Z.pow_add_r by lia. apply Z.pow_le_mono_r; lia. }
        assert (2 ^ Z.max (55 - Z.min (-52) e) (55 + e - Z.min (-52) e)
                = 2 * 2 ^ (Z.max (55 - Z.min (-52) e) (55 + e - Z.min (-52) e) - 1))
          as ->.
        { rewrite <- Z.pow_succ_r by lia. f_equal. lia. }
        nia.
      * lia.
      * by destruct (e' <=? emax - prec).
    + apply SFltb_finite_one in Hlt as Hcmp.
      assert (Z.min (-52) e = e) as -> by lia.
      assert (Zpos m < 2 ^ (- e)) as Hm.
      { destruct Hcmp as [He|[-> Hm]]; [|by rewrite <- H52 in Hm].
        assert (2 ^ 53 ≤ 2 ^ (- e)) by (apply Z.pow_le_mono_r; lia). lia. }
      destruct (binary_normalize_pos
                  (cond_Zopp false
                     (Zpos (fst (shl_align 4503599627370496 (-52) e)))
                   - cond_Zopp false (Zpos (fst (shl_align m e e))))
                  e (- e))
        as (m' & e' & -> & Hb).
      * unfold cond_Zopp. rewrite !shl_align_value by lia. rewrite <- H52.
        rewrite <- Z.pow_add_r, Z.sub_diag by lia.
        replace (52 + (-52 - e)) with (- e) by lia. lia.
      * done.
      * unfold cond_Zopp. rewrite !shl_align_value by lia. rewrite <- H52.
        rewrite <- Z.pow_add_r, Z.sub_diag by lia.
        replace (52 + (-52 - e)) with (- e) by lia. lia.
      * lia.
      * assert ((e' <=? emax - prec) = true) as ->.
        { apply Z.leb_le. unfold emax, prec. lia. }
        done.
Qed.
End rounding.

(** *** The rule at zero *)

Section zero_arithmetic.
Local Open Scope float_scope.

Definition SF_is_zero (x : spec_float) : Prop :=
  match x with
  | S754_zero _ => True
  | _ => False
  end.

(** A zero or a positive finite float. *)
Definition SF_finite_nonneg (x : spec_float) : Prop :=
  match x with
  | S754_zero _ | S754_finite false _ _ => True
  | _ => False
  end.

Lemma Prim2SF_0 : Prim2SF 0 = S754_zero false.
Proof. reflexivity. Qed.

Lemma Prim2SF_1 : Prim2SF 1 = SF_one.
Proof. reflexivity. Qed.

Lemma positive_spec x : (0 <? x) = true → SF_positive (Prim2SF x).
Proof.
  rewrite ltb_spec, Prim2SF_0. by destruct (Prim2SF x) as [?|[]| |[]].
Qed.

Lemma finite_nonneg_spec x :
  (0 <=? x) = true → (x <? infinity) = true → SF_finite_nonneg (Prim2SF x).
Proof.
  rewrite leb_spec, ltb_spec, Prim2SF_0.
  change (Prim2SF infinity) with (S754_infinity false).
  by destruct (Prim2SF x) as [?|[]| |[]].
Qed.

(** [1.0 - x] is positive for [x < 1.0], and finite for [0.0 < x < 1.0]. *)
Lemma one_minus_positive x :
  (x <? 1) = true → SF_positive (Prim2SF (1 - x)).
Proof.
  rewrite ltb_spec, sub_spec, Prim2SF_1. intros Hlt.
  by apply SFsub_one_lt; [apply Prim2SF_valid|].
Qed.

Lemma one_minus_positive_finite x :
  (0 <? x) = true → (x <? 1) = true → SF_positive_finite (Prim2SF (1 - x)).
Proof.
  rewrite !ltb_spec, sub_spec, Prim2SF_0, Prim2SF_1. intros H0 Hlt.
  by apply SFsub_one_lt; [apply Prim2SF_valid| |].
Qed.

Lemma mul_zero_r x :
  match Prim2SF x with S754_zero _ | S754_finite _ _ _ => True | _ => False end →
  SF_is_zero (Prim2SF (x * 0)).
Proof.
  rewrite mul_spec, Prim2SF_0. by destruct (Prim2SF x).
Qed.

Lemma add_zeros x y :
  Prim2SF x = S754_zero false → SF_is_zero (Prim2SF y) → x + y = 0.
Proof.
  intros Hx Hy. apply Prim2SF_inj. rewrite add_spec, Hx, Prim2SF_0.
  by destruct (Prim2SF y) as [[]| | |].
Qed.

Lemma zero_div_positive d : SF_positive (Prim2SF d) → 0 / d = 0.
Proof.
  intros Hd. apply Prim2SF_inj. rewrite div_spec, Prim2SF_0.
  by destruct (Prim2SF d) as [?|[]| |[]].
Qed.

Lemma zero_add_positive x : SF_positive (Prim2SF x) → 0 + x = x.
Proof.
  intros Hx. apply Prim2SF_inj. rewrite add_spec, Prim2SF_0.
  by destruct (Prim2SF x) as [?|[]| |[]].
Qed.

Lemma zero_div_zero_sign z d :
  SF_is_zero (Prim2SF z) → SF_positive (Prim2SF d) → SF_is_zero (Prim2SF (z / d)).
Proof.
  rewrite div_spec.
  by destruct (Prim2SF z), (Prim2SF d) as [?|[]| |[]].
Qed.

(** The moments' rule at zeros: [beta*0 + (1-beta)*0] is [0.0]. *)
Lemma zero_moment beta :
  (0 <? beta) = true → (beta <? 1) = true →
  beta * 0 + (1 - beta) * 0 = 0.
Proof.
  intros H0 H1. apply add_zeros.
  - pose proof (positive_spec _ H0) as Hp. revert H1 Hp.
    rewrite ltb_spec, mul_spec, Prim2SF_0, Prim2SF_1.
    by destruct (Prim2SF beta) as [?|[]| |[]].
  - apply mul_zero_r.
    pose proof (one_minus_positive_finite _ H0 H1) as Hp.
    by destruct (Prim2SF (1 - beta)) as [?|?| |[]].
Qed.

(** Two floats that are one value, or two zeros. *)
Definition same_number (a b : float) : Prop :=
  a = b ∨ (is_zero a = true ∧ is_zero b = true).

Lemma is_zero_spec x : SF_is_zero (Prim2SF x) → is_zero x = true.
Proof.
  unfold is_zero. rewrite FloatAxioms.eqb_spec.
  change (Prim2SF zero) with (S754_zero false). by destruct (Prim2SF x).
Qed.

(** Adding a zero to the decay term first does not change the number. *)
Lemma sub_zero_plus a d x :
  SF_is_zero (Prim2SF a) → same_number (x - (a + d)) (x - d).
Proof.
  intros Ha. destruct (Prim2SF d) as [sd|sd| |sd md ed] eqn:Hd.
  - assert (SF_is_zero (Prim2SF (a + d))) as Had.
    { rewrite add_spec, Hd. by destruct (Prim2SF a) as [[]| | |], sd. }
    destruct (Prim2SF x) as [sx|sx| |sx mx ex] eqn:Hx.
    + right. split; apply is_zero_spec; rewrite sub_spec, Hx.
      * by destruct (Prim2SF (a + d)) as [[]| | |], sx.
      * rewrite Hd. by destruct sx, sd.
    + left. apply Prim2SF_inj. rewrite !sub_spec, Hx, Hd.
      by destruct (Prim2SF (a + d)).
    + left. apply Prim2SF_inj. by rewrite !sub_spec, Hx.
    + left. apply Prim2SF_inj. rewrite !sub_spec, Hx, Hd.
      by destruct (Prim2SF (a + d)).
  - left. f_equal. apply Prim2SF_inj. rewrite add_spec, Hd.
    by destruct (Prim2SF a).
  - left. f_equal. apply Prim2SF_inj. rewrite add_spec, Hd.
    by destruct (Prim2SF a).
  - left. f_equal. apply Prim2SF_inj. rewrite add_spec, Hd.
    by destruct (Prim2SF a).
Qed.

(** The adaptive term at zero moments is a zero. *)
Lemma zero_adaptive learning_rate epsilon b1t b2t :
  (0 <=? learning_rate) = true → (learning_rate <? infinity) = true →
  (0 <? epsilon) = true →
  (b1t <? 1) = true → (b2t <? 1) = true →
  SF_is_zero
    (Prim2SF (learning_rate * (0 / (1 - b1t)) / (sqrt (0 / (1 - b2t)) + epsilon))).
Proof.
  intros Hl0 Hl1 He H1 H2.
  rewrite (zero_div_positive (1 - b1t)) by by apply one_minus_positive.
  rewrite (zero_div_positive (1 - b2t)) by by apply one_minus_positive.
  change (sqrt 0) with 0.
  rewrite zero_add_positive by by apply positive_spec.
  apply zero_div_zero_sign; [|by apply positive_spec].
  apply mul_zero_r. pose proof (finite_nonneg_spec _ Hl0 Hl1) as Hf.
  by destruct (Prim2SF learning_rate) as [?|?| |[]].
Qed.
End zero_arithmetic.

(** ** Concrete calls

    One-dimensional arrays, and stores of three objects: a state dict at
    [s] whose ["m"] is the list at [lm] and whose ["v"] is the list at
    [lv]. In [ex_store] the lists are at 0 and 1 and the dict is at 2. *)
#[local] Set Warnings "-inexact-float".

Definition vec (xs : list float) : np.ndarray float :=
  np.NdArray [length xs] xs.

Definition store_at (s lm lv : py.loc) (ms vs : list (np.ndarray float))
    : py.heap float :=
  <[s := py.Dict (<["m" := lm]> (<["v" := lv]> ∅))]>
    (<[lv := py.List vs]> (<[lm := py.List ms]> ∅)).

Definition ex_store (ms vs : list (np.ndarray float)) : py.heap float :=
  store_at 2 0 1 ms vs.

(** The keyword defaults of the source: [beta1=0.9], [beta2=0.999],
    [epsilon=1e-8], [t=1], [weight_decay=0.01]. *)
Definition adamw_defaults (params grads : list (np.ndarray float))
    (learning_rate : float) (state : option py.loc)
    : py.M float (list (np.ndarray float) * py.loc) :=
  adamw params grads learning_rate state 0.9%float 0.999%float 1e-8%float 1
        0.01%float.

(** * Properties *)

(** ** Arrays of one shape *)

Section np_facts.
Context {F : Type} `{Float64 F}.
Implicit Types (a b : np.ndarray F) (s r : list nat).

Lemma np_size_app s1 s2 : np.size (s1 ++ s2) = np.size s1 * np.size s2.
Proof.
  induction s1 as [|d s1 IH]; simpl; [lia|]. rewrite IH. lia.
Qed.

Lemma np_size_reverse s : np.size (reverse s) = np.size s.
Proof.
  induction s as [|d s IH]; [done|].
  rewrite reverse_cons, np_size_app, IH. simpl. lia.
Qed.

Lemma np_bc_dim_same d : np.bc_dim d d = Some d.
Proof. unfold np.bc_dim. by rewrite Nat.eqb_refl. Qed.

Lemma np_bc_rev_same r : np.bc_rev r r = Some r.
Proof.
  induction r as [|d r IH]; [done|].
  simpl. by rewrite np_bc_dim_same, IH.
Qed.

Lemma np_broadcast_shapes_same s : np.broadcast_shapes s s = Some s.
Proof.
  unfold np.broadcast_shapes. rewrite np_bc_rev_same. simpl.
  by rewrite reverse_involutive.
Qed.

(** Against its own shape an operand is read at the position written. *)
Lemma np_bc_index_same r : ∀ k, k < np.size r → np.bc_index r r k = k.
Proof.
  induction r as [|d r IH]; intros k Hk; simpl in *.
  - lia.
  - assert (d ≠ 0) by (intros ->; simpl in Hk; lia).
    assert (k / d < np.size r) by (apply Nat.Div0.div_lt_upper_bound; lia).
    rewrite IH by done.
    destruct (d =? 1) eqn:Hd.
    + apply Nat.eqb_eq in Hd. subst d. rewrite Nat.div_1_r. lia.
    + pose proof (Nat.div_mod_eq k d). lia.
Qed.

Lemma np_bc_get_same a k :
  k < np.size (np.shape a) →
  np.bc_get (np.shape a) a k = default fzero (np.data a !! k).
Proof.
  intros Hk. unfold np.bc_get.
  rewrite np_bc_index_same; [done|]. by rewrite np_size_reverse.
Qed.

Lemma np_broadcast2_same f a b :
  np.wf a → np.wf b → np.shape b = np.shape a →
  np.broadcast2 f a b = Ok (np.zip f a b).
Proof.
  unfold np.wf. intros Ha Hb Hs. unfold np.broadcast2, np.zip.
  rewrite Hs, np_broadcast_shapes_same. do 2 f_equal.
  apply list_eq. intros k.
  rewrite list_lookup_fmap, lookup_zip_with.
  destruct (decide (k < np.size (np.shape a))) as [Hk|Hk].
  - rewrite lookup_seq_lt by done. simpl.
    rewrite np_bc_get_same by done.
    rewrite <- Hs at 1. rewrite np_bc_get_same by (by rewrite Hs).
    destruct (lookup_lt_is_Some_2 (np.data a) k) as [x ->]; [lia|].
    destruct (lookup_lt_is_Some_2 (np.data b) k) as [y ->]; [rewrite Hb, Hs; lia|].
    done.
  - rewrite lookup_seq_ge by lia. simpl.
    by rewrite (lookup_ge_None_2 (np.data a)) by lia.
Qed.

Lemma np_zip_wf f a b :
  np.wf a → np.wf b → np.shape b = np.shape a → np.wf (np.zip f a b).
Proof.
  unfold np.wf, np.zip. simpl. intros Ha Hb Hs.
  rewrite length_zip_with, Ha, Hb, Hs. lia.
Qed.

Lemma np_ufunc_wf f a : np.wf a → np.wf (np.ufunc f a).
Proof. unfold np.wf, np.ufunc. simpl. by rewrite length_fmap. Qed.

Lemma np_zeros_like_wf a : np.wf (np.zeros_like a).
Proof. unfold np.wf, np.zeros_like. simpl. by rewrite length_replicate. Qed.
End np_facts.

(** ** The rule on aligned arrays *)

Section rule_facts.
Context {F : Type} `{Float64 F}.
Variables (learning_rate beta1 beta2 epsilon : F) (t : Z) (weight_decay : F).
Implicit Types (param grad m_i v_i : np.ndarray F).

Lemma new_m_aligned m_i grad :
  np.wf m_i → np.wf grad → np.shape grad = np.shape m_i →
  new_m beta1 m_i grad = Ok (step_m beta1 m_i grad).
Proof.
  intros Hm Hg Hs. unfold new_m, np.add, np.rmul.
  rewrite np_broadcast2_same by auto using np_ufunc_wf.
  unfold step_m, np.zip, rule_m. simpl.
  by rewrite zip_with_fmap_l, zip_with_fmap_r.
Qed.

Lemma new_v_aligned v_i grad :
  np.wf v_i → np.wf grad → np.shape grad = np.shape v_i →
  new_v beta2 v_i grad = Ok (step_v beta2 v_i grad).
Proof.
  intros Hv Hg Hs. unfold new_v, np.add, np.rmul, np.square.
  rewrite np_broadcast2_same by auto using np_ufunc_wf.
  unfold step_v, np.zip, rule_v. simpl.
  by rewrite zip_with_fmap_l, !zip_with_fmap_r.
Qed.

Lemma new_param_aligned b1t b2t m_i v_i param :
  fpow beta1 t = Ok b1t → fpow beta2 t = Ok b2t →
  np.wf param → np.wf m_i → np.wf v_i →
  np.shape m_i = np.shape param → np.shape v_i = np.shape param →
  new_param learning_rate beta1 beta2 epsilon t weight_decay m_i v_i param
  = Ok (step_param learning_rate epsilon weight_decay b1t b2t m_i v_i param).
Proof.
  intros Hb1 Hb2 Hp Hm Hv Hsm Hsv. unfold new_param.
  rewrite Hb1, Hb2. simpl.
  unfold np.divide, np.add, np.subtract, np.rmul, np.div_scalar,
    np.add_scalar, np.sqrt.
  rewrite np_broadcast2_same; cycle 1.
  { auto using np_ufunc_wf. } { auto using np_ufunc_wf. }
  { simpl. congruence. }
  simpl. rewrite np_broadcast2_same; cycle 1.
  { apply np_zip_wf; auto using np_ufunc_wf. simpl. congruence. }
  { auto using np_ufunc_wf. } { simpl. congruence. }
  simpl. rewrite np_broadcast2_same; cycle 1.
  { done. }
  { apply np_zip_wf; [|auto using np_ufunc_wf|done].
    apply np_zip_wf; auto using np_ufunc_wf. simpl. congruence. }
  { simpl. congruence. }
  unfold step_param, np.zip. simpl. f_equal. f_equal.
  apply list_eq. intros k.
  rewrite !lookup_zip_with, !list_lookup_fmap.
  by destruct (np.data param !! k) as [p|], (np.data m_i !! k) as [m|],
    (np.data v_i !! k) as [v|].
Qed.

Lemma step_m_shape m_i grad : np.shape (step_m beta1 m_i grad) = np.shape m_i.
Proof. done. Qed.

Lemma step_v_shape v_i grad : np.shape (step_v beta2 v_i grad) = np.shape v_i.
Proof. done. Qed.

Lemma step_m_wf m_i grad :
  np.wf m_i → np.wf grad → np.shape grad = np.shape m_i →
  np.wf (step_m beta1 m_i grad).
Proof. apply np_zip_wf. Qed.

Lemma step_v_wf v_i grad :
  np.wf v_i → np.wf grad → np.shape grad = np.shape v_i →
  np.wf (step_v beta2 v_i grad).
Proof. apply np_zip_wf. Qed.
End rule_facts.

(** ** The store version and the two-list version agree *)

Section refinement.
Context {F : Type} `{Float64 F}.
Variables (learning_rate beta1 beta2 epsilon : F) (t : Z) (weight_decay : F).
Variables lm lv : py.loc.
Hypothesis lm_lv : lm ≠ lv.
Implicit Types (h : py.heap F) (ms vs : list (np.ndarray F)).

Lemma with_moments_id h ms vs :
  h !! lm = Some (py.List ms) → h !! lv = Some (py.List vs) →
  with_moments lm lv (ms, vs) h = h.
Proof using Type.
  intros Hm Hv. unfold with_moments. simpl.
  rewrite (insert_id h) by done. by rewrite insert_id.
Qed.

Lemma with_moments_lookup_m h mv :
  with_moments lm lv mv h !! lm = Some (py.List mv.1).
Proof using lm_lv.
  unfold with_moments. rewrite lookup_insert_ne by done.
  by rewrite lookup_insert_eq.
Qed.

Lemma with_moments_lookup_v h mv :
  with_moments lm lv mv h !! lv = Some (py.List mv.2).
Proof using Type.
  unfold with_moments. by rewrite lookup_insert_eq.
Qed.

Lemma with_moments_lookup_ne h mv l :
  l ≠ lm → l ≠ lv → with_moments lm lv mv h !! l = h !! l.
Proof using Type.
  intros. unfold with_moments. by rewrite !lookup_insert_ne.
Qed.

Lemma with_moments_twice h mv mv' :
  with_moments lm lv mv' (with_moments lm lv mv h) = with_moments lm lv mv' h.
Proof using lm_lv.
  unfold with_moments.
  rewrite (insert_insert_ne _ lm lv) by done.
  by rewrite !insert_insert_eq.
Qed.

Lemma with_moments_set_m h ms vs i a :
  <[lm := py.List (<[i := a]> ms)]> (with_moments lm lv (ms, vs) h)
  = with_moments lm lv (<[i := a]> ms, vs) h.
Proof using lm_lv.
  unfold with_moments. simpl.
  rewrite (insert_insert_ne _ lm lv) by done.
  by rewrite insert_insert_eq.
Qed.

Lemma with_moments_set_v h ms vs i a :
  <[lv := py.List (<[i := a]> vs)]> (with_moments lm lv (ms, vs) h)
  = with_moments lm lv (ms, <[i := a]> vs) h.
Proof using Type.
  unfold with_moments. simpl. by rewrite insert_insert_eq.
Qed.

Lemma body_refines h mv i param grad :
  body learning_rate beta1 beta2 epsilon t weight_decay lm lv i param grad
       (with_moments lm lv mv h)
  = let r := body_pure learning_rate beta1 beta2 epsilon t weight_decay
                       i param grad mv in
    (r.1, with_moments lm lv r.2 h).
Proof using lm_lv.
  destruct mv as [ms vs].
  unfold body, body_pure, mbind, M_bind, py.bind, py.list_getitem,
    py.list_setitem, py.lift.
  rewrite with_moments_lookup_m. cbn [fst snd].
  destruct (ms !! i) as [m_i|] eqn:Hmi; [|done].
  fold (new_m beta1 m_i grad).
  destruct (new_m beta1 m_i grad) as [nm|e]; [|done].
  rewrite with_moments_lookup_m. cbn [fst snd].
  apply lookup_lt_Some in Hmi as Hlen.
  rewrite decide_True by done.
  rewrite with_moments_set_m.
  rewrite with_moments_lookup_v. cbn [fst snd].
  destruct (vs !! i) as [v_i|] eqn:Hvi; [|done].
  fold (new_v beta2 v_i grad).
  destruct (new_v beta2 v_i grad) as [nv|e]; [|done].
  cbn zeta. rewrite with_moments_lookup_v. cbn [fst snd].
  apply lookup_lt_Some in Hvi as Hlen'.
  rewrite decide_True by done.
  rewrite with_moments_set_v.
  rewrite with_moments_lookup_m. cbn [fst snd].
  rewrite list_lookup_insert_eq by done.
  unfold new_param, mbind, result_mbind, result_bind.
  destruct (fpow beta1 t) as [b1t|e]; [|done].
  rewrite with_moments_lookup_v. cbn [fst snd].
  rewrite list_lookup_insert_eq by done.
  destruct (fpow beta2 t) as [b2t|e]; [|done].
  destruct (np.divide _ _) as [adaptive|e]; [|done].
  by destruct (np.add _ _) as [param_update|e].
Qed.

Lemma for_loop_refines pairs : ∀ h mv i acc,
  for_loop learning_rate beta1 beta2 epsilon t weight_decay lm lv pairs i acc
           (with_moments lm lv mv h)
  = let r := loop_pure learning_rate beta1 beta2 epsilon t weight_decay
                       pairs i acc mv in
    (r.1, with_moments lm lv r.2 h).
Proof using lm_lv.
  induction pairs as [|[param grad] rest IH]; intros h mv i acc; [done|].
  cbn [for_loop loop_pure]. unfold mbind, M_bind, py.bind.
  rewrite body_refines. cbn zeta. cbn [fst snd].
  destruct (body_pure _ _ _ _ _ _ i param grad mv) as [[u|e] mv']; cbn [fst snd].
  - apply IH.
  - done.
Qed.
End refinement.

(** ** A call on a state whose two lists are distinct objects *)

Section call.
Context {F : Type} `{Float64 F}.
Variables (learning_rate beta1 beta2 epsilon : F) (t : Z) (weight_decay : F).
Implicit Types (h : py.heap F) (ms vs : list (np.ndarray F)).

(** A list and a dict are never the same object. *)
Lemma list_not_dict h l s items entries :
  h !! l = Some (py.List items) → h !! s = Some (py.Dict entries) → s ≠ l.
Proof. intros Hl Hs ->. congruence. Qed.

Lemma adamw_refines h s entries lm lv ms vs params grads :
  h !! s = Some (py.Dict entries) →
  entries !! "m" = Some lm → entries !! "v" = Some lv →
  lm ≠ lv →
  h !! lm = Some (py.List ms) → h !! lv = Some (py.List vs) →
  adamw params grads learning_rate (Some s) beta1 beta2 epsilon t weight_decay h
  = let r := adamw_pure learning_rate beta1 beta2 epsilon t weight_decay
                        params grads (ms, vs) in
    (outcome s r.1, with_moments lm lv r.2 h).
Proof.
  intros Hs Hm Hv Hne Hlm Hlv.
  pose proof (list_not_dict _ _ _ _ _ Hlm Hs) as Hsm.
  pose proof (list_not_dict _ _ _ _ _ Hlv Hs) as Hsv.
  unfold adamw, adamw_pure, mbind, M_bind, py.bind, mret, M_ret, py.ret,
    py.dict_getitem.
  rewrite Hs, Hm, Hs, Hv.
  rewrite <- (with_moments_id lm lv h ms vs) at 1 by done.
  rewrite for_loop_refines by done. cbn zeta.
  destruct (loop_pure _ _ _ _ _ _ _ _ _ _) as [[ups|e] mv']; cbn [fst snd];
    [|done].
  unfold py.dict_setitem.
  rewrite with_moments_lookup_ne, Hs by done.
  rewrite (insert_id entries) by done.
  assert (<[s := py.Dict entries]> (with_moments lm lv mv' h)
          = with_moments lm lv mv' h) as ->.
  { apply insert_id. by rewrite with_moments_lookup_ne. }
  rewrite with_moments_lookup_ne, Hs by done.
  rewrite (insert_id entries) by done.
  by rewrite insert_id by (by rewrite with_moments_lookup_ne).
Qed.
End call.

(** ** The loop over aligned entries *)

Section loop_facts.
Context {F : Type} `{Float64 F}.
Variables (learning_rate beta1 beta2 epsilon : F) (t : Z) (weight_decay : F).
Implicit Types (ms vs acc : list (np.ndarray F)).
Implicit Types (pairs : list (np.ndarray F * np.ndarray F)).

Local Abbreviation loop := (loop_pure learning_rate beta1 beta2 epsilon t weight_decay).
Local Abbreviation round := (body_pure learning_rate beta1 beta2 epsilon t weight_decay).
Local Abbreviation sm := (step_m beta1).
Local Abbreviation sv := (step_v beta2).
Local Abbreviation sp := (step_param learning_rate epsilon weight_decay).

Lemma body_pure_aligned b1t b2t i param grad m_i v_i ms vs :
  fpow beta1 t = Ok b1t → fpow beta2 t = Ok b2t →
  ms !! i = Some m_i → vs !! i = Some v_i →
  aligned param grad m_i v_i →
  round i param grad (ms, vs)
  = (Ok (sp b1t b2t (sm m_i grad) (sv v_i grad) param),
     (<[i := sm m_i grad]> ms, <[i := sv v_i grad]> vs)).
Proof.
  intros Hb1 Hb2 Hm Hv (Hp & Hg & Hwm & Hwv & Hsg & Hsm & Hsv).
  unfold body_pure. cbn [fst snd]. rewrite Hm, Hv.
  rewrite new_m_aligned, new_v_aligned by congruence.
  rewrite (new_param_aligned _ _ _ _ _ _ b1t b2t); try done.
  - apply step_m_wf; congruence.
  - apply step_v_wf; congruence.
Qed.

(** The loop over [l1 ++ l2] is the loop over [l1], then over [l2] from
    where the first stopped, unless it raised. *)
Lemma loop_pure_app l1 l2 : ∀ i acc mv,
  loop (l1 ++ l2) i acc mv
  = match loop l1 i acc mv with
    | (Ok acc', mv') => loop l2 (i + length l1) acc' mv'
    | (Raise e, mv') => (Raise e, mv')
    end.
Proof.
  induction l1 as [|[p g] l1 IH]; intros i acc mv; simpl.
  - by rewrite Nat.add_0_r.
  - destruct (round i p g mv) as [[u|e] mv']; [|done].
    rewrite IH. by replace (S i + length l1) with (i + S (length l1)) by lia.
Qed.

Lemma loop_pure_aligned b1t b2t pairs : ∀ i acc ms vs,
  fpow beta1 t = Ok b1t → fpow beta2 t = Ok b2t →
  (∀ j p g, pairs !! j = Some (p, g) →
     ∃ m v, ms !! (i + j) = Some m ∧ vs !! (i + j) = Some v ∧ aligned p g m v) →
  ∃ ups ms' vs',
    loop pairs i acc (ms, vs) = (Ok (acc ++ ups), (ms', vs')) ∧
    length ups = length pairs ∧
    length ms' = length ms ∧ length vs' = length vs ∧
    (∀ k, k < i ∨ i + length pairs ≤ k →
       ms' !! k = ms !! k ∧ vs' !! k = vs !! k) ∧
    (∀ j p g m v, pairs !! j = Some (p, g) →
       ms !! (i + j) = Some m → vs !! (i + j) = Some v →
       ms' !! (i + j) = Some (sm m g) ∧
       vs' !! (i + j) = Some (sv v g) ∧
       ups !! j = Some (sp b1t b2t (sm m g) (sv v g) p)).
Proof.
  induction pairs as [|[p g] rest IH]; intros i acc ms vs Hb1 Hb2 Hal.
  - exists [], ms, vs. rewrite app_nil_r. repeat split; try done.
  - destruct (Hal 0 p g eq_refl) as (m & v & Hm & Hv & Ha).
    rewrite Nat.add_0_r in Hm, Hv.
    apply lookup_lt_Some in Hm as Hlm. apply lookup_lt_Some in Hv as Hlv.
    destruct (IH (S i) (acc ++ [sp b1t b2t (sm m g) (sv v g) p])
                (<[i := sm m g]> ms) (<[i := sv v g]> vs) Hb1 Hb2)
      as (ups & ms' & vs' & Hrun & Hlen & Hlms & Hlvs & Hout & Hin).
    { intros j p' g' Hj. destruct (Hal (S j) p' g' Hj) as (m' & v' & ? & ? & ?).
      exists m', v'. rewrite !list_lookup_insert_ne by lia.
      by replace (S i + j) with (i + S j) by lia. }
    exists (sp b1t b2t (sm m g) (sv v g) p :: ups), ms', vs'.
    rewrite length_insert in Hlms. rewrite length_insert in Hlvs.
    split; [|split; [|split; [|split; [|split]]]]; try done.
    + cbn [loop_pure]. rewrite (body_pure_aligned b1t b2t _ _ _ m v) by done.
      rewrite Hrun. by rewrite <- app_assoc.
    + simpl. by rewrite Hlen.
    + intros k Hk. simpl in Hk.
      destruct (Hout k) as [-> ->]; [lia|].
      by rewrite !list_lookup_insert_ne by lia.
    + intros [|j] p' g' m' v' Hj Hm' Hv'.
      * rewrite Nat.add_0_r in *. simpl in Hj. simplify_eq.
        destruct (Hout i) as [-> ->]; [lia|].
        by rewrite !list_lookup_insert_eq by done.
      * simpl in Hj. replace (i + S j) with (S i + j) in * by lia.
        apply (Hin j p' g' m' v' Hj); by rewrite list_lookup_insert_ne by lia.
Qed.
End loop_facts.

(** ** Calls on aligned inputs *)

Section aligned_calls.
Context {F : Type} `{Float64 F}.
Variables (learning_rate beta1 beta2 epsilon : F) (t : Z) (weight_decay : F).
Implicit Types (h : py.heap F) (params grads ms vs : list (np.ndarray F)).

Local Abbreviation call := (λ params grads state,
  adamw params grads learning_rate state beta1 beta2 epsilon t weight_decay).
Local Abbreviation sm := (step_m beta1).
Local Abbreviation sv := (step_v beta2).
Local Abbreviation sp := (step_param learning_rate epsilon weight_decay).

Lemma lookup_zip_Some params grads j p g :
  zip params grads !! j = Some (p, g) ↔
  params !! j = Some p ∧ grads !! j = Some g.
Proof.
  rewrite lookup_zip_with_Some. split.
  - intros (x & y & ? & ? & ?). by simplify_eq.
  - intros [? ?]. by exists p, g.
Qed.

Lemma aligned_upto_zip n params grads ms vs :
  n = length params `min` length grads →
  aligned_upto n params grads ms vs →
  ∀ j p g, zip params grads !! j = Some (p, g) →
    ∃ m v, ms !! (0 + j) = Some m ∧ vs !! (0 + j) = Some v ∧ aligned p g m v.
Proof.
  intros -> Hal j p g [Hp Hg]%lookup_zip_Some.
  apply lookup_lt_Some in Hp as ?. apply lookup_lt_Some in Hg as ?.
  destruct (Hal j) as (p' & g' & m & v & ? & ? & ? & ? & ?); [lia|].
  simplify_eq. by exists m, v.
Qed.

(** The loop runs over the shorter of [params] and [grads]; over aligned
    entries it raises nothing, writes the rule's moments at the indices it
    visits and leaves every other entry of the two lists as it was. *)
Lemma adamw_aligned_prefix h s lm lv ms vs params grads n b1t b2t :
  holds_state h s lm lv ms vs →
  n = length params `min` length grads →
  aligned_upto n params grads ms vs →
  fpow beta1 t = Ok b1t → fpow beta2 t = Ok b2t →
  ∃ ups ms' vs',
    call params grads (Some s) h
      = (Ok (ups, s), with_moments lm lv (ms', vs') h) ∧
    length ups = n ∧ length ms' = length ms ∧ length vs' = length vs ∧
    (∀ k, n ≤ k → ms' !! k = ms !! k ∧ vs' !! k = vs !! k) ∧
    (∀ i p g m v,
       params !! i = Some p → grads !! i = Some g →
       ms !! i = Some m → vs !! i = Some v →
       ms' !! i = Some (sm m g) ∧ vs' !! i = Some (sv v g) ∧
       ups !! i = Some (sp b1t b2t (sm m g) (sv v g) p)).
Proof.
  intros (entries & Hs & Hm & Hv & Hne & Hlm & Hlv) Hn Hal Hb1 Hb2.
  destruct (loop_pure_aligned learning_rate beta1 beta2 epsilon t weight_decay
              b1t b2t (zip params grads) 0 [] ms vs Hb1 Hb2)
    as (ups & ms' & vs' & Hrun & Hlen & Hlms & Hlvs & Hout & Hin).
  { by apply (aligned_upto_zip n). }
  exists ups, ms', vs'.
  rewrite (adamw_refines _ _ _ _ _ _ h s entries lm lv ms vs) by done.
  unfold adamw_pure. rewrite Hrun. cbn.
  rewrite length_zip in Hlen, Hout.
  split; [done|]. split; [lia|]. split; [done|]. split; [done|]. split.
  - intros k Hk. apply Hout. lia.
  - intros i p g m v Hp Hg Hmi Hvi.
    apply (Hin i p g m v); [by apply lookup_zip_Some|done..].
Qed.

(** With a power that raises, the first round has already stored both
    moments of index 0 when the error leaves the call. *)
Lemma adamw_power_raises h s lm lv ms vs p g m v params grads e :
  holds_state h s lm lv ms vs →
  aligned p g m v →
  ms !! 0 = Some m → vs !! 0 = Some v →
  (fpow beta1 t = Raise e ∨ (∃ b1t, fpow beta1 t = Ok b1t) ∧ fpow beta2 t = Raise e) →
  call (p :: params) (g :: grads) (Some s) h
  = (Raise e, with_moments lm lv (<[0 := sm m g]> ms, <[0 := sv v g]> vs) h).
Proof.
  intros (entries & Hs & Hm & Hv & Hne & Hlm & Hlv)
    (Hp & Hg & Hwm & Hwv & Hsg & Hsm & Hsv) Hm0 Hv0 Hpow.
  rewrite (adamw_refines _ _ _ _ _ _ h s entries lm lv ms vs) by done.
  unfold adamw_pure. cbn [zip zip_with loop_pure].
  unfold body_pure. cbn [fst snd]. rewrite Hm0, Hv0.
  rewrite new_m_aligned, new_v_aligned by congruence.
  unfold new_param, mbind, result_mbind, result_bind.
  destruct Hpow as [->|[[b1t ->] ->]]; done.
Qed.
End aligned_calls.

(** ** A call without a state *)

Section no_state.
Context {F : Type} `{Float64 F}.
Variables (learning_rate beta1 beta2 epsilon : F) (t : Z) (weight_decay : F).
Implicit Types (h : py.heap F) (params grads : list (np.ndarray F)).

(** The three objects of a new state are new to the store, and the state
    they make holds one zero array per parameter, twice. *)
Lemma fresh_state_spec params h :
  ∃ s lm lv,
    (lm ∉ dom h) ∧ (lv ∉ dom h) ∧ (s ∉ dom h) ∧
    let zeros := np.zeros_like <$> params in
    let h0 := <[s := py.Dict (<["m" := lm]> (<["v" := lv]> ∅))]>
                (<[lv := py.List zeros]> (<[lm := py.List zeros]> h)) in
    fresh_state params h = (Ok s, h0) ∧
    holds_state h0 s lm lv zeros zeros.
Proof.
  set (zeros := np.zeros_like <$> params).
  set (lm := fresh (dom h)).
  set (h1 := <[lm := py.List zeros]> h).
  set (lv := fresh (dom h1)).
  set (h2 := <[lv := py.List zeros]> h1).
  set (s := fresh (dom h2)).
  assert (lm ∉ dom h) as Hlm by apply is_fresh.
  assert (lv ∉ dom h1) as Hlv by apply is_fresh.
  assert (s ∉ dom h2) as Hs by apply is_fresh.
  unfold h2 in Hs. unfold h1 in Hlv, Hs.
  rewrite !dom_insert_L in Hs. rewrite dom_insert_L in Hlv.
  assert (lv ≠ lm) by set_solver. assert (s ≠ lm) by set_solver.
  assert (s ≠ lv) by set_solver.
  exists s, lm, lv.
  split; [done|]. split; [set_solver|]. split; [set_solver|].
  cbn zeta. split; [done|].
  exists (<["m" := lm]> (<["v" := lv]> ∅)).
  split; [by rewrite lookup_insert_eq|].
  split; [by rewrite lookup_insert_eq|].
  split; [by rewrite lookup_insert_ne, lookup_insert_eq|].
  split; [done|]. split.
  - by rewrite !lookup_insert_ne, lookup_insert_eq by done.
  - by rewrite lookup_insert_ne, lookup_insert_eq by done.
Qed.

(** [state = None] is the same call on the state just built. *)
Lemma adamw_None_unfold params grads h s h0 :
  fresh_state params h = (Ok s, h0) →
  adamw params grads learning_rate None beta1 beta2 epsilon t weight_decay h
  = adamw params grads learning_rate (Some s) beta1 beta2 epsilon t
          weight_decay h0.
Proof.
  intros Hf. unfold adamw.
  unfold mbind at 1. unfold M_bind, py.bind at 1. rewrite Hf.
  symmetry. unfold mbind at 1. by unfold M_bind, py.bind at 1.
Qed.

Lemma zeros_like_lookup params i p :
  params !! i = Some p →
  (np.zeros_like <$> params) !! i = Some (np.zeros_like p).
Proof. intros Hp. by rewrite list_lookup_fmap, Hp. Qed.
End no_state.

(** ** Reading the rule off the arrays *)

Section elements.
Context {F : Type} `{Float64 F}.
Variables (learning_rate beta1 beta2 epsilon : F) (t : Z) (weight_decay : F).
Implicit Types (p g m v : np.ndarray F).

Lemma step_m_lookup m g k mk gk :
  np.data m !! k = Some mk → np.data g !! k = Some gk →
  np.data (step_m beta1 m g) !! k = Some (rule_m beta1 mk gk).
Proof.
  intros Hm Hg. unfold step_m, np.zip. simpl.
  by rewrite lookup_zip_with, Hm, Hg.
Qed.

Lemma step_v_lookup v g k vk gk :
  np.data v !! k = Some vk → np.data g !! k = Some gk →
  np.data (step_v beta2 v g) !! k = Some (rule_v beta2 vk gk).
Proof.
  intros Hv Hg. unfold step_v, np.zip. simpl.
  by rewrite lookup_zip_with, Hv, Hg.
Qed.

Lemma step_param_lookup b1t b2t m v p k mk vk x :
  np.data m !! k = Some mk → np.data v !! k = Some vk →
  np.data p !! k = Some x →
  np.data (step_param learning_rate epsilon weight_decay b1t b2t m v p) !! k
  = Some (rule_param learning_rate epsilon weight_decay b1t b2t mk vk x).
Proof.
  intros Hm Hv Hp. unfold step_param. simpl.
  by rewrite !lookup_zip_with, Hm, Hv, Hp.
Qed.

Lemma step_param_shape b1t b2t m v p :
  np.shape (step_param learning_rate epsilon weight_decay b1t b2t m v p)
  = np.shape p.
Proof. done. Qed.

Lemma step_param_wf b1t b2t m v p :
  np.wf p → np.wf m → np.wf v →
  np.shape m = np.shape p → np.shape v = np.shape p →
  np.wf (step_param learning_rate epsilon weight_decay b1t b2t m v p).
Proof.
  unfold np.wf, step_param. simpl. intros Hp Hm Hv Hsm Hsv.
  rewrite !length_zip_with, Hp, Hm, Hv, Hsm, Hsv. lia.
Qed.
End elements.

(** ** State left behind, short moment lists, zero inputs *)

Section more_calls.
Context {F : Type} `{Float64 F}.
Variables (learning_rate beta1 beta2 epsilon : F) (t : Z) (weight_decay : F).
Implicit Types (h : py.heap F) (params grads ms vs : list (np.ndarray F)).

Local Abbreviation call := (λ params grads state,
  adamw params grads learning_rate state beta1 beta2 epsilon t weight_decay).
Local Abbreviation sm := (step_m beta1).
Local Abbreviation sv := (step_v beta2).
Local Abbreviation sp := (step_param learning_rate epsilon weight_decay).

Lemma holds_state_with_moments h s lm lv ms vs mv :
  holds_state h s lm lv ms vs →
  holds_state (with_moments lm lv mv h) s lm lv mv.1 mv.2.
Proof.
  intros (entries & Hs & Hm & Hv & Hne & Hlm & Hlv).
  pose proof (list_not_dict _ _ _ _ _ Hlm Hs).
  pose proof (list_not_dict _ _ _ _ _ Hlv Hs).
  exists entries. split; [by rewrite with_moments_lookup_ne|].
  split; [done|]. split; [done|]. split; [done|].
  split; [by apply with_moments_lookup_m|by apply with_moments_lookup_v].
Qed.

(** A call answers what the two-list version answers, whatever else the
    store holds and wherever the state lives in it. *)
Lemma adamw_from_contents h s lm lv ms vs params grads :
  holds_state h s lm lv ms vs →
  call params grads (Some s) h
  = let r := adamw_pure learning_rate beta1 beta2 epsilon t weight_decay
                        params grads (ms, vs) in
    (outcome s r.1, with_moments lm lv r.2 h).
Proof.
  intros (entries & Hs & Hm & Hv & Hne & Hlm & Hlv).
  by apply (adamw_refines _ _ _ _ _ _ h s entries).
Qed.

(** Zero moments and zero gradients: when the rule maps zeros to zero the
    moments stay what they were. *)
Lemma step_m_zeros p :
  rule_m beta1 fzero fzero = fzero →
  sm (np.zeros_like p) (np.zeros_like p) = np.zeros_like p.
Proof.
  intros Hz. unfold step_m, np.zip, np.zeros_like. simpl.
  by rewrite zip_with_replicate, Hz.
Qed.

Lemma step_v_zeros p :
  rule_v beta2 fzero fzero = fzero →
  sv (np.zeros_like p) (np.zeros_like p) = np.zeros_like p.
Proof.
  intros Hz. unfold step_v, np.zip, np.zeros_like. simpl.
  by rewrite zip_with_replicate, Hz.
Qed.

Lemma aligned_zeros p :
  np.wf p → aligned p (np.zeros_like p) (np.zeros_like p) (np.zeros_like p).
Proof.
  intros Hp. repeat split; auto using np_zeros_like_wf.
Qed.
(** Zero gradients on zero moments: when the rule of the moments maps
    zeros to zero, the call leaves the store as it is and every returned
    element is the rule of the parameter at zero moments. *)
Lemma adamw_zero_moments_call h s lm lv params b1t b2t :
  let zeros := np.zeros_like <$> params in
  holds_state h s lm lv zeros zeros →
  Forall np.wf params →
  fpow beta1 t = Ok b1t →
  fpow beta2 t = Ok b2t →
  rule_m beta1 fzero fzero = fzero →
  rule_v beta2 fzero fzero = fzero →
  ∃ updated_params,
    adamw params zeros learning_rate (Some s) beta1 beta2 epsilon t
          weight_decay h
      = (Ok (updated_params, s), h) ∧
    length updated_params = length params ∧
    ∀ i p, params !! i = Some p →
      ∃ u, updated_params !! i = Some u ∧ np.shape u = np.shape p ∧
        ∀ k x, np.data p !! k = Some x →
          np.data u !! k
            = Some (rule_param learning_rate epsilon weight_decay b1t b2t
                      fzero fzero x).
Proof.
  intros zeros Hst Hwf Hb1 Hb2 Hzm Hzv.
  assert (length zeros = length params) as Hlz by apply length_fmap.
  destruct (adamw_aligned_prefix learning_rate beta1 beta2 epsilon t
              weight_decay h s lm lv zeros zeros params zeros (length params)
              b1t b2t) as (ups & ms' & vs' & Hrun & Hl & Hlm & Hlv & Hout & Hin);
    [done|lia| |done..|].
  { intros i Hi. destruct (lookup_lt_is_Some_2 params i Hi) as [p Hp].
    exists p, (np.zeros_like p), (np.zeros_like p), (np.zeros_like p).
    pose proof (zeros_like_lookup params i p Hp) as Hz.
    split; [done|]. split; [done|]. split; [done|]. split; [done|].
    apply aligned_zeros. by apply (Forall_lookup_1 _ _ _ _ Hwf Hp). }
  assert (∀ i p, params !! i = Some p →
            ms' !! i = Some (np.zeros_like p) ∧
            vs' !! i = Some (np.zeros_like p) ∧
            ups !! i = Some (step_param learning_rate epsilon weight_decay
                               b1t b2t (np.zeros_like p) (np.zeros_like p) p))
    as Hat.
  { intros i p Hp. pose proof (zeros_like_lookup params i p Hp) as Hz.
    destruct (Hin i p _ _ _ Hp Hz Hz Hz) as (Hm' & Hv' & Hu).
    by rewrite step_m_zeros, step_v_zeros in * by done. }
  assert (ms' = zeros ∧ vs' = zeros) as [-> ->].
  { split; apply list_eq; intros i.
    - destruct (params !! i) as [p|] eqn:Hp.
      + destruct (Hat i p Hp) as (-> & _ & _).
        symmetry. by apply zeros_like_lookup.
      + apply lookup_ge_None in Hp. by destruct (Hout i Hp) as [-> _].
    - destruct (params !! i) as [p|] eqn:Hp.
      + destruct (Hat i p Hp) as (_ & -> & _).
        symmetry. by apply zeros_like_lookup.
      + apply lookup_ge_None in Hp. by destruct (Hout i Hp) as [_ ->]. }
  destruct Hst as (entries & Hs & Hm & Hv & Hne & Hhm & Hhv).
  rewrite with_moments_id in Hrun by done.
  exists ups. split; [done|]. split; [done|].
  intros i p Hp. destruct (Hat i p Hp) as (_ & _ & Hu).
  eexists. split; [exact Hu|]. split; [done|].
  intros k x Hx.
  assert (k < np.size (np.shape p)) as Hk.
  { apply lookup_lt_Some in Hx.
    by rewrite (Forall_lookup_1 _ _ _ _ Hwf Hp) in Hx. }
  by rewrite (step_param_lookup _ _ _ _ _ _ _ p k fzero fzero x);
    [|by apply lookup_replicate_2..|done].
Qed.
End more_calls.

(** * The claims *)

Section claims.
Context {F : Type} `{Float64 F}.
Implicit Types (h : py.heap F) (params grads ms vs : list (np.ndarray F)).

(** C1. On [N >= 1] parameters with gradients and moment entries of the
    parameters' shapes, and hyperparameters at which [beta1 ** t] and
    [beta2 ** t] evaluate, to [b1t] and [b2t] (in the valid domain or not),
    a call returns, and at every index [i] and every position [k] of the
    arrays the stored moments and the returned parameter are the update rule
    of the specification: [m = beta1*m + (1-beta1)*grad],
    [v = beta2*v + (1-beta2)*grad^2],
    [updated = param - (learning_rate * (m/(1-beta1^t)) /
    (sqrt(v/(1-beta2^t)) + epsilon) + learning_rate*weight_decay*param)],
    each index from its own entries only. *)
Theorem adamw_update_rule
    (learning_rate beta1 beta2 epsilon : F) (t : Z) (weight_decay : F)
    h s lm lv ms vs params grads b1t b2t :
  holds_state h s lm lv ms vs →
  1 ≤ length params →
  length grads = length params →
  aligned_upto (length params) params grads ms vs →
  fpow beta1 t = Ok b1t →
  fpow beta2 t = Ok b2t →
  ∃ updated_params ms' vs',
    adamw params grads learning_rate (Some s) beta1 beta2 epsilon t
          weight_decay h
      = (Ok (updated_params, s), with_moments lm lv (ms', vs') h) ∧
    length updated_params = length params ∧
    ∀ i p g m v,
      params !! i = Some p → grads !! i = Some g →
      ms !! i = Some m → vs !! i = Some v →
      ∃ m' v' u,
        ms' !! i = Some m' ∧ vs' !! i = Some v' ∧
        updated_params !! i = Some u ∧
        ∀ k x gk mk vk,
          np.data p !! k = Some x → np.data g !! k = Some gk →
          np.data m !! k = Some mk → np.data v !! k = Some vk →
          np.data m' !! k = Some (rule_m beta1 mk gk) ∧
          np.data v' !! k = Some (rule_v beta2 vk gk) ∧
          np.data u !! k
            = Some (rule_param learning_rate epsilon weight_decay b1t b2t
                      (rule_m beta1 mk gk) (rule_v beta2 vk gk) x).
Proof.
  intros Hst HN Hlen Hal Hb1 Hb2.
  destruct (adamw_aligned_prefix learning_rate beta1 beta2 epsilon t
              weight_decay h s lm lv ms vs params grads (length params)
              b1t b2t) as (ups & ms' & vs' & Hrun & Hl & _ & _ & _ & Hin);
    [done|lia|done..|].
  exists ups, ms', vs'.
  split; [done|]. split; [done|].
  intros i p g m v Hp Hg Hm Hv.
  destruct (Hin i p g m v Hp Hg Hm Hv) as (Hm' & Hv' & Hu).
  eexists _, _, _. split; [exact Hm'|]. split; [exact Hv'|].
  split; [exact Hu|].
  intros k x gk mk vk Hx Hgk Hmk Hvk.
  split; [by apply step_m_lookup|]. split; [by apply step_v_lookup|].
  apply step_param_lookup; [by apply step_m_lookup|by apply step_v_lookup|done].
Qed.

(** C2 (amended). [adamw] does not look at [t]. With [t < 1] and aligned
    inputs the call raises nothing as soon as both powers evaluate, as they
    always do at [t = 0], where they are [1.0] and both bias-correction
    denominators are [1.0 - 1.0]; the divisions by them are carried out, the
    result is returned, and the moments of the state are overwritten as in
    any other call. *)
Theorem adamw_t_below_one_runs
    (learning_rate beta1 beta2 epsilon : F) (t : Z) (weight_decay : F)
    h s lm lv ms vs params grads b1t b2t :
  (t < 1)%Z →
  holds_state h s lm lv ms vs →
  1 ≤ length params →
  length grads = length params →
  aligned_upto (length params) params grads ms vs →
  fpow beta1 t = Ok b1t → fpow beta2 t = Ok b2t →
  (t = 0%Z → b1t = fone ∧ b2t = fone) ∧
  ∃ updated_params ms' vs',
    adamw params grads learning_rate (Some s) beta1 beta2 epsilon t
          weight_decay h
      = (Ok (updated_params, s), with_moments lm lv (ms', vs') h) ∧
    ∀ i p g m v,
      params !! i = Some p → grads !! i = Some g →
      ms !! i = Some m → vs !! i = Some v →
      ms' !! i = Some (step_m beta1 m g) ∧
      vs' !! i = Some (step_v beta2 v g) ∧
      updated_params !! i
        = Some (step_param learning_rate epsilon weight_decay b1t b2t
                  (step_m beta1 m g) (step_v beta2 v g) p).
Proof.
  intros Ht Hst HN Hlen Hal Hb1 Hb2. split.
  - intros ->. rewrite fpow_0 in Hb1, Hb2. by simplify_eq.
  - destruct (adamw_aligned_prefix learning_rate beta1 beta2 epsilon t
                weight_decay h s lm lv ms vs params grads (length params)
                b1t b2t) as (ups & ms' & vs' & Hrun & _ & _ & _ & _ & Hin);
      [done|lia|done..|].
    by exists ups, ms', vs'.
Qed.

(** C3 (amended). [adamw] checks no length and no shape; a mismatch is met
    only when a statement of the loop trips on it. At the first index [k]
    that [state["m"]] lacks (Python's [IndexError]), or at which the shapes
    of [state["m"][k]] and [grads[k]] do not broadcast (NumPy's
    [ValueError]), the call fails, and not before any assignment: the
    moments of every index before [k] have been overwritten by the update
    rule by then. Every entry at [k] or beyond is as it was. *)
Theorem adamw_mismatch_fails_late
    (learning_rate beta1 beta2 epsilon : F) (t : Z) (weight_decay : F)
    h s lm lv ms vs params grads k p_k g_k e b1t b2t :
  holds_state h s lm lv ms vs →
  params !! k = Some p_k → grads !! k = Some g_k →
  aligned_upto k params grads ms vs →
  (ms !! k = None ∧ e = IndexError) ∨
  (∃ m_k, ms !! k = Some m_k ∧
          np.broadcast_shapes (np.shape m_k) (np.shape g_k) = None ∧
          e = ValueError) →
  fpow beta1 t = Ok b1t → fpow beta2 t = Ok b2t →
  ∃ ms' vs',
    adamw params grads learning_rate (Some s) beta1 beta2 epsilon t
          weight_decay h
      = (Raise e, with_moments lm lv (ms', vs') h) ∧
    length ms' = length ms ∧ length vs' = length vs ∧
    (∀ j, k ≤ j → ms' !! j = ms !! j ∧ vs' !! j = vs !! j) ∧
    (∀ i p g m v,
       i < k →
       params !! i = Some p → grads !! i = Some g →
       ms !! i = Some m → vs !! i = Some v →
       ms' !! i = Some (step_m beta1 m g) ∧
       vs' !! i = Some (step_v beta2 v g)).
Proof.
  intros Hst Hpk Hgk Hal Hbad Hb1 Hb2.
  pose proof (adamw_from_contents learning_rate beta1 beta2 epsilon t
                weight_decay h s lm lv ms vs params grads Hst) as Hcall.
  unfold adamw_pure in Hcall. cbn zeta in Hcall.
  set (pairs := zip params grads) in *.
  assert (pairs !! k = Some (p_k, g_k)) as Hpair by (by apply lookup_zip_Some).
  apply lookup_lt_Some in Hpair as Hk.
  rewrite <- (take_drop k pairs), loop_pure_app in Hcall.
  destruct (loop_pure_aligned learning_rate beta1 beta2 epsilon t weight_decay
              b1t b2t (take k pairs) 0 [] ms vs Hb1 Hb2)
    as (ups & ms' & vs' & Hrun & Hlen & Hlms & Hlvs & Hout & Hin).
  { intros j p g [Hj Hlt]%lookup_take_Some.
    apply lookup_zip_Some in Hj as [Hp Hg].
    destruct (Hal j Hlt) as (p' & g' & m & v & ? & ? & ? & ? & ?).
    simplify_eq. by exists m, v. }
  rewrite Hrun, length_take_le in Hcall by lia. cbn [Nat.add] in Hcall.
  rewrite length_take_le in Hout by lia.
  rewrite (drop_S _ (p_k, g_k)) in Hcall by done.
  cbn [loop_pure] in Hcall. unfold body_pure in Hcall. cbn [fst snd] in Hcall.
  destruct (Hout k) as [Hmk _]; [lia|]. rewrite Hmk in Hcall.
  exists ms', vs'. split.
  - destruct Hbad as [[Hnone ->]|(m_k & Hsome & Hbc & ->)].
    + by rewrite Hnone in Hcall.
    + rewrite Hsome in Hcall. unfold new_m, np.add, np.broadcast2 in Hcall.
      cbn [np.rmul np.ufunc np.shape] in Hcall. by rewrite Hbc in Hcall.
  - split; [done|]. split; [done|]. split.
    + intros j Hj. apply Hout. lia.
    + intros i p g m v Hi Hp Hg Hm Hv.
      destruct (Hin i p g m v) as (? & ? & _); [|done..].
      apply lookup_take_Some. split; [|done]. by apply lookup_zip_Some.
Qed.

(** C4 (amended). [adamw] checks no hyperparameter; whatever [beta1],
    [beta2], [epsilon], [learning_rate] and [weight_decay] are, they are
    used as they come. On aligned inputs with at least one parameter the
    only failures are those of [beta1 ** t] and [beta2 ** t] themselves
    (Python's [ZeroDivisionError] or [OverflowError]), which leave the call
    after the moments of index 0 have been overwritten; when both powers
    evaluate the call returns the update rule's result and overwrites the
    moments of every index. *)
Theorem adamw_no_hyperparameter_check
    (learning_rate beta1 beta2 epsilon : F) (t : Z) (weight_decay : F)
    h s lm lv ms vs p g m v params grads :
  holds_state h s lm lv ms vs →
  length grads = length params →
  aligned_upto (S (length params)) (p :: params) (g :: grads) ms vs →
  ms !! 0 = Some m → vs !! 0 = Some v →
  match fpow beta1 t, fpow beta2 t with
  | Ok b1t, Ok b2t =>
      ∃ updated_params ms' vs',
        adamw (p :: params) (g :: grads) learning_rate (Some s) beta1 beta2
              epsilon t weight_decay h
          = (Ok (updated_params, s), with_moments lm lv (ms', vs') h) ∧
        length updated_params = S (length params) ∧
        ∀ i p' g' m' v',
          (p :: params) !! i = Some p' → (g :: grads) !! i = Some g' →
          ms !! i = Some m' → vs !! i = Some v' →
          ms' !! i = Some (step_m beta1 m' g') ∧
          vs' !! i = Some (step_v beta2 v' g') ∧
          updated_params !! i
            = Some (step_param learning_rate epsilon weight_decay b1t b2t
                      (step_m beta1 m' g') (step_v beta2 v' g') p')
  | Raise e, _ | Ok _, Raise e =>
      adamw (p :: params) (g :: grads) learning_rate (Some s) beta1 beta2
            epsilon t weight_decay h
        = (Raise e,
           with_moments lm lv
             (<[0 := step_m beta1 m g]> ms, <[0 := step_v beta2 v g]> vs) h)
  end.
Proof.
  intros Hst Hlen Hal Hm0 Hv0.
  assert (aligned p g m v) as Ha.
  { destruct (Hal 0) as (p' & g' & m' & v' & ? & ? & ? & ? & ?); [lia|].
    by simplify_eq/=. }
  destruct (fpow beta1 t) as [b1t|e] eqn:Hb1.
  - destruct (fpow beta2 t) as [b2t|e] eqn:Hb2.
    + destruct (adamw_aligned_prefix learning_rate beta1 beta2 epsilon t
                  weight_decay h s lm lv ms vs (p :: params) (g :: grads)
                  (S (length params)) b1t b2t)
        as (ups & ms' & vs' & Hrun & Hl & _ & _ & _ & Hin);
        [done|simpl;lia|done..|].
      by exists ups, ms', vs'.
    + apply adamw_power_raises; [done..|]. right. split; [by exists b1t|done].
  - apply adamw_power_raises; [done..|]. by left.
Qed.

(** C6. Called with [state = None], [adamw] builds its state before the
    loop: two new lists, each holding one all-zero array per parameter of
    that parameter's shape, and a new dict naming them; the call then is the
    call on that state. The three objects are new to the store (none of them
    is an object that existed before the call, so nothing is shared with an
    earlier call), the two lists are different objects, and every object the
    store held before the call is left as it was. *)
Theorem adamw_None_fresh_zero_state
    (learning_rate beta1 beta2 epsilon : F) (t : Z) (weight_decay : F)
    h params grads :
  ∃ s lm lv,
    (lm ∉ dom h) ∧ (lv ∉ dom h) ∧ (s ∉ dom h) ∧ lm ≠ lv ∧
    let zeros := np.zeros_like <$> params in
    let h0 := <[s := py.Dict (<["m" := lm]> (<["v" := lv]> ∅))]>
                (<[lv := py.List zeros]> (<[lm := py.List zeros]> h)) in
    adamw params grads learning_rate None beta1 beta2 epsilon t weight_decay h
      = adamw params grads learning_rate (Some s) beta1 beta2 epsilon t
              weight_decay h0 ∧
    length zeros = length params ∧
    (∀ i p, params !! i = Some p →
       ∃ z, zeros !! i = Some z ∧ np.shape z = np.shape p ∧
            np.data z = replicate (np.size (np.shape p)) fzero) ∧
    (∀ l, l ∈ dom h →
       (adamw params grads learning_rate None beta1 beta2 epsilon t
              weight_decay h).2 !! l = h !! l).
Proof.
  destruct (fresh_state_spec params h)
    as (s & lm & lv & Hlm & Hlv & Hs & Hfresh & Hst).
  exists s, lm, lv.
  assert (lm ≠ lv) as Hne by (by destruct Hst as (? & ? & ? & ? & ? & ?)).
  split; [done|]. split; [done|]. split; [done|]. split; [done|].
  cbn zeta.
  pose proof (adamw_None_unfold learning_rate beta1 beta2 epsilon t
                weight_decay params grads h s _ Hfresh) as Hcall.
  split; [done|]. split; [by rewrite length_fmap|]. split.
  - intros i p Hp. exists (np.zeros_like p).
    split; [by apply zeros_like_lookup|done].
  - intros l Hl. rewrite Hcall.
    rewrite (adamw_from_contents _ _ _ _ _ _ _ s lm lv _ _ _ _ Hst).
    cbn [snd].
    rewrite with_moments_lookup_ne by set_solver.
    by rewrite !lookup_insert_ne by set_solver.
Qed.

(** C7. With empty [params] and [grads] a call raises nothing and returns
    the empty list with the state: given a state (a dict with its ["m"] and
    ["v"]), that state and an unchanged store; given [None], a new state of
    two empty lists, every earlier object of the store left as it was. No
    hyperparameter is looked at. *)
Theorem adamw_empty
    (learning_rate beta1 beta2 epsilon : F) (t : Z) (weight_decay : F)
    h state :
  match state with
  | Some s => ∃ entries lm lv, h !! s = Some (py.Dict entries) ∧
                entries !! "m" = Some lm ∧ entries !! "v" = Some lv
  | None => True
  end →
  ∃ s' h',
    adamw [] [] learning_rate state beta1 beta2 epsilon t weight_decay h
      = (Ok ([], s'), h') ∧
    match state with
    | Some s => s' = s ∧ h' = h
    | None => (s' ∉ dom h) ∧ (∀ l, l ∈ dom h → h' !! l = h !! l) ∧
              ∃ lm lv, holds_state h' s' lm lv [] []
    end.
Proof.
  assert (∀ h0 s entries lm lv,
            h0 !! s = Some (py.Dict entries) →
            entries !! "m" = Some lm → entries !! "v" = Some lv →
            adamw [] [] learning_rate (Some s) beta1 beta2 epsilon t
                  weight_decay h0 = (Ok ([], s), h0)) as Hsome.
  { intros h0 s entries lm lv Hs Hm Hv.
    unfold adamw, mbind, M_bind, py.bind, mret, M_ret, py.ret,
      py.dict_getitem, py.dict_setitem. cbn [zip zip_with for_loop].
    rewrite Hs, Hm, Hs, Hv. unfold mret, M_ret, py.ret. rewrite Hs.
    rewrite (insert_id entries), (insert_id h0), Hs by done.
    by rewrite (insert_id entries), (insert_id h0) by done. }
  destruct state as [s|].
  - intros (entries & lm & lv & Hs & Hm & Hv).
    exists s, h. split; [by apply (Hsome h s entries lm lv)|done].
  - intros _.
    destruct (fresh_state_spec [] h)
      as (s & lm & lv & Hlm & Hlv & Hs & Hfresh & Hst).
    cbn zeta in Hfresh, Hst. eexists s, _. split.
    + rewrite (adamw_None_unfold learning_rate beta1 beta2 epsilon t
                 weight_decay [] [] h s _ Hfresh).
      destruct Hst as (entries & Hes & Hm & Hv & _).
      by apply (Hsome _ s entries lm lv).
    + split; [done|]. split; [|by exists lm, lv].
      intros l Hl. by rewrite !lookup_insert_ne by set_solver.
Qed.

(** C8. On valid inputs (equal lengths, every gradient and moment entry
    of its parameter's shape) and hyperparameters at which [beta1 ** t] and
    [beta2 ** t] evaluate (in the valid domain or not), a call returns, and
    at every index the updated parameter and both stored moments are
    well-formed arrays of exactly the shape of the parameter. *)
Theorem adamw_preserves_shapes
    (learning_rate beta1 beta2 epsilon : F) (t : Z) (weight_decay : F)
    h s lm lv ms vs params grads b1t b2t :
  holds_state h s lm lv ms vs →
  length grads = length params →
  length ms = length params → length vs = length params →
  aligned_upto (length params) params grads ms vs →
  fpow beta1 t = Ok b1t →
  fpow beta2 t = Ok b2t →
  ∃ updated_params ms' vs',
    adamw params grads learning_rate (Some s) beta1 beta2 epsilon t
          weight_decay h
      = (Ok (updated_params, s), with_moments lm lv (ms', vs') h) ∧
    length updated_params = length params ∧
    length ms' = length params ∧ length vs' = length params ∧
    ∀ i p, params !! i = Some p →
      ∃ u m' v',
        updated_params !! i = Some u ∧ ms' !! i = Some m' ∧
        vs' !! i = Some v' ∧
        np.shape u = np.shape p ∧ np.shape m' = np.shape p ∧
        np.shape v' = np.shape p ∧
        np.wf u ∧ np.wf m' ∧ np.wf v'.
Proof.
  intros Hst Hlen Hlms Hlvs Hal Hb1 Hb2.
  destruct (adamw_aligned_prefix learning_rate beta1 beta2 epsilon t
              weight_decay h s lm lv ms vs params grads (length params)
              b1t b2t) as (ups & ms' & vs' & Hrun & Hl & Hlm & Hlv & _ & Hin);
    [done|lia|done..|].
  exists ups, ms', vs'. split; [done|]. split; [done|].
  split; [congruence|]. split; [congruence|].
  intros i p Hp. apply lookup_lt_Some in Hp as Hi.
  destruct (Hal i Hi) as (p' & g & m & v & Hp' & Hg & Hm & Hv & Ha).
  simplify_eq.
  destruct (Hin i p g m v Hp Hg Hm Hv) as (Hm' & Hv' & Hu).
  destruct Ha as (Hwp & Hwg & Hwm & Hwv & Hsg & Hsm & Hsv).
  eexists _, _, _. split; [exact Hu|]. split; [exact Hm'|].
  split; [exact Hv'|]. split; [done|]. split; [done|]. split; [done|].
  split; [|split].
  - apply step_param_wf; try done.
    + apply step_m_wf; congruence.
    + apply step_v_wf; congruence.
  - apply step_m_wf; congruence.
  - apply step_v_wf; congruence.
Qed.

(** C9. What a call answers is a function of its arguments and of the
    contents of the state alone: two calls with the same arguments on states
    of the same contents, in whatever stores and at whatever places in them,
    give the same outcome [r] (the same updated parameters, or the same
    exception) and leave the same contents [(ms', vs')] in their states.
    Nothing else of the store is read, so no counter or other hidden input
    takes part; the same holds of two calls with [state = None]. *)
Theorem adamw_deterministic
    (learning_rate beta1 beta2 epsilon : F) (t : Z) (weight_decay : F)
    params grads :
  (∀ ms vs h1 s1 lm1 lv1 h2 s2 lm2 lv2,
     holds_state h1 s1 lm1 lv1 ms vs →
     holds_state h2 s2 lm2 lv2 ms vs →
     ∃ r ms' vs',
       adamw params grads learning_rate (Some s1) beta1 beta2 epsilon t
             weight_decay h1
         = (outcome s1 r, with_moments lm1 lv1 (ms', vs') h1) ∧
       adamw params grads learning_rate (Some s2) beta1 beta2 epsilon t
             weight_decay h2
         = (outcome s2 r, with_moments lm2 lv2 (ms', vs') h2)) ∧
  (∀ h1 h2 : py.heap F,
     ∃ r ms' vs' s1 lm1 lv1 h1' s2 lm2 lv2 h2',
       adamw params grads learning_rate None beta1 beta2 epsilon t
             weight_decay h1 = (outcome s1 r, h1') ∧
       adamw params grads learning_rate None beta1 beta2 epsilon t
             weight_decay h2 = (outcome s2 r, h2') ∧
       holds_state h1' s1 lm1 lv1 ms' vs' ∧
       holds_state h2' s2 lm2 lv2 ms' vs').
Proof.
  split.
  - intros ms vs h1 s1 lm1 lv1 h2 s2 lm2 lv2 H1 H2.
    rewrite (adamw_from_contents _ _ _ _ _ _ h1 s1 lm1 lv1 ms vs) by done.
    rewrite (adamw_from_contents _ _ _ _ _ _ h2 s2 lm2 lv2 ms vs) by done.
    cbn zeta.
    destruct (adamw_pure _ _ _ _ _ _ params grads (ms, vs)) as [r [ms' vs']].
    by exists r, ms', vs'.
  - intros h1 h2.
    destruct (fresh_state_spec params h1)
      as (s1 & lm1 & lv1 & _ & _ & _ & Hf1 & Hst1).
    destruct (fresh_state_spec params h2)
      as (s2 & lm2 & lv2 & _ & _ & _ & Hf2 & Hst2).
    cbn zeta in Hf1, Hst1, Hf2, Hst2.
    rewrite (adamw_None_unfold _ _ _ _ _ _ params grads h1 s1 _ Hf1).
    rewrite (adamw_None_unfold _ _ _ _ _ _ params grads h2 s2 _ Hf2).
    rewrite (adamw_from_contents _ _ _ _ _ _ _ s1 lm1 lv1 _ _ _ _ Hst1).
    rewrite (adamw_from_contents _ _ _ _ _ _ _ s2 lm2 lv2 _ _ _ _ Hst2).
    cbn zeta.
    destruct (adamw_pure _ _ _ _ _ _ params grads _) as [r [ms' vs']].
    eexists r, ms', vs', s1, lm1, lv1, _, s2, lm2, lv2, _.
    split; [done|]. split; [done|].
    split; [apply (holds_state_with_moments _ _ _ _ _ _ (ms', vs') Hst1)|
            apply (holds_state_with_moments _ _ _ _ _ _ (ms', vs') Hst2)].
Qed.

(** C10. The loop runs over [zip(params, grads)], that is over the first
    [n = min(len(params), len(grads))] indices. When [grads] is the shorter
    list (or [params] is) and those [n] indices are aligned, a call raises
    nothing, returns [n] updated parameters, writes the rule's moments at
    the indices below [n] and leaves every entry of [state["m"]] and
    [state["v"]] at an index [n] or beyond as it was; the parameters or
    gradients past [n] are never read. *)
Theorem adamw_zip_shortest
    (learning_rate beta1 beta2 epsilon : F) (t : Z) (weight_decay : F)
    h s lm lv ms vs params grads n b1t b2t :
  holds_state h s lm lv ms vs →
  n = length params `min` length grads →
  aligned_upto n params grads ms vs →
  fpow beta1 t = Ok b1t → fpow beta2 t = Ok b2t →
  ∃ updated_params ms' vs',
    adamw params grads learning_rate (Some s) beta1 beta2 epsilon t
          weight_decay h
      = (Ok (updated_params, s), with_moments lm lv (ms', vs') h) ∧
    adamw (take n params) (take n grads) learning_rate (Some s) beta1 beta2
          epsilon t weight_decay h
      = (Ok (updated_params, s), with_moments lm lv (ms', vs') h) ∧
    length updated_params = n ∧
    length ms' = length ms ∧ length vs' = length vs ∧
    (∀ k, n ≤ k → ms' !! k = ms !! k ∧ vs' !! k = vs !! k) ∧
    (∀ i p g m v,
       params !! i = Some p → grads !! i = Some g →
       ms !! i = Some m → vs !! i = Some v →
       ms' !! i = Some (step_m beta1 m g) ∧
       vs' !! i = Some (step_v beta2 v g) ∧
       updated_params !! i
         = Some (step_param learning_rate epsilon weight_decay b1t b2t
                   (step_m beta1 m g) (step_v beta2 v g) p)).
Proof.
  intros Hst Hn Hal Hb1 Hb2.
  destruct (adamw_aligned_prefix learning_rate beta1 beta2 epsilon t
              weight_decay h s lm lv ms vs params grads n b1t b2t)
    as (ups & ms' & vs' & Hrun & Hrest); [done..|].
  exists ups, ms', vs'. split; [done|]. split; [|done].
  rewrite <- Hrun.
  rewrite !(adamw_from_contents _ _ _ _ _ _ h s lm lv ms vs) by done.
  unfold adamw_pure.
  assert (zip (take n params) (take n grads) = zip params grads) as ->; [|done].
  rewrite <- zip_with_take. apply take_ge. rewrite length_zip. lia.
Qed.
End claims.

(** * Concrete calls on binary64 *)

Local Open Scope float_scope.

Lemma store_at_holds s lm lv ms vs :
  s ≠ lm → s ≠ lv → lm ≠ lv →
  holds_state (store_at s lm lv ms vs) s lm lv ms vs.
Proof.
  intros Hsm Hsv Hne.
  exists (<["m" := lm]> (<["v" := lv]> ∅)). unfold store_at.
  split; [by rewrite lookup_insert_eq|].
  split; [by rewrite lookup_insert_eq|].
  split; [by rewrite lookup_insert_ne, lookup_insert_eq|].
  split; [done|]. split.
  - by rewrite !lookup_insert_ne, lookup_insert_eq by done.
  - by rewrite lookup_insert_ne, lookup_insert_eq by done.
Qed.

Lemma ex_store_holds ms vs :
  holds_state (ex_store ms vs) 2%nat 0%nat 1%nat ms vs.
Proof. by apply store_at_holds. Qed.

Lemma float_class_ne (x y : float) : classify x ≠ classify y → x ≠ y.
Proof. intros Hc ->. by apply Hc. Qed.

(** Broadcasting as NumPy does it: [(2,1)] against [(1,3)] gives [(2,3)],
    a 0-d array goes with any shape, [(2,)] against [(3,)] is refused. *)
Example broadcast_column_row :
  np.add (np.NdArray [2; 1]%nat [10; 20]) (np.NdArray [1; 3]%nat [1; 2; 3])
  = Ok (np.NdArray [2; 3]%nat [11; 12; 13; 21; 22; 23]).
Proof. vm_compute. reflexivity. Qed.

Example broadcast_zero_dim :
  np.add (np.NdArray [2; 2]%nat [1; 2; 3; 4]) (np.NdArray [] [10])
  = Ok (np.NdArray [2; 2]%nat [11; 12; 13; 14]).
Proof. vm_compute. reflexivity. Qed.

Example broadcast_refused :
  np.add (vec [1; 2]) (vec [1; 2; 3]) = Raise ValueError.
Proof. vm_compute. reflexivity. Qed.

(** The first step of the specification's example: [p = 1.0], [grad = 1.0],
    [learning_rate = 0.1], [weight_decay = 0], no state. The moments become
    [0.1] and [0.001] (as binary64 rounds them) and the parameter
    [0.9000000010]; the new state is the dict at 2. *)
Example adamw_first_step :
  ∃ h', adamw [vec [1]] [vec [1]] 0.1 None 0.9 0.999 1e-8 1 0 ∅
          = (Ok ([vec [0.90000000099999999]], 2%nat), h') ∧
        holds_state h' 2%nat 0%nat 1%nat
          [vec [0.099999999999999978]] [vec [0.0010000000000000009]].
Proof.
  eexists. split; [vm_compute; reflexivity|].
  apply (store_at_holds 2 0 1); lia.
Qed.

(** The first indices of concrete lists, one case an index. *)
Ltac aligned_cases :=
  let i := fresh "i" in let Hi := fresh "Hi" in
  intros i Hi;
  repeat (destruct i as [|i];
          [eexists _, _, _, _; repeat split; reflexivity|]);
  exfalso; simpl in Hi; lia.

(** C1 at the specification's example taken to the fourth step: one
    scalar parameter [1.0] with gradient [1.0], zero moments,
    [learning_rate=0.1], [weight_decay=0], [t=4], where [0.9 ** 4] is
    [0.6561] and [0.999 ** 4] is [0.996005996001]. *)
Lemma adamw_update_rule_witness :
  ∃ u ms' vs',
    adamw [vec [1]] [vec [1]] 0.1 (Some 2%nat) 0.9 0.999 1e-8 4 0
          (ex_store [vec [0]] [vec [0]])
      = (Ok ([u], 2%nat),
         with_moments 0%nat 1%nat (ms', vs') (ex_store [vec [0]] [vec [0]])) ∧
    np.data u !! 0%nat
      = Some (rule_param 0.1 1e-8 0 0.6561 0.996005996001
                (rule_m 0.9 0 1) (rule_v 0.999 0 1) 1).
Proof.
  destruct (adamw_update_rule (F := float) 0.1 0.9 0.999 1e-8 4 0
              (ex_store [vec [0]] [vec [0]]) 2%nat 0%nat 1%nat
              [vec [0]] [vec [0]] [vec [1]] [vec [1]] 0.6561 0.996005996001)
    as (ups & ms' & vs' & Hrun & Hlen & Hat).
  - apply ex_store_holds.
  - simpl. lia.
  - reflexivity.
  - aligned_cases.
  - vm_compute. reflexivity.
  - vm_compute. reflexivity.
  - destruct (Hat 0%nat (vec [1]) (vec [1]) (vec [0]) (vec [0])
                eq_refl eq_refl eq_refl eq_refl)
      as (m' & v' & u & _ & _ & Hu & Hk).
    destruct (Hk 0%nat 1 1 0 0 eq_refl eq_refl eq_refl eq_refl) as (_ & _ & Hd).
    destruct ups as [|u0 [|u1 ups]]; simpl in Hlen; try discriminate Hlen.
    simpl in Hu. injection Hu as ->.
    exists u, ms', vs'. split; [exact Hrun|exact Hd].
Defined.

(** C2, counterexample: [t = 0] on one scalar parameter. The call returns;
    the updated parameter is [nan] ([inf/inf], from the two divisions by
    [1.0 - 1.0]); and the state's moments have been overwritten. *)
Lemma adamw_t_zero_returns :
  adamw [vec [1]] [vec [1]] 0.1 (Some 2%nat) 0.9 0.999 1e-8 0 0.01
        (ex_store [vec [0]] [vec [0]])
    = (Ok ([vec [nan]], 2%nat),
       ex_store [vec [0.099999999999999978]] [vec [0.0010000000000000009]]) ∧
  0.099999999999999978 ≠ 0 ∧ 0.0010000000000000009 ≠ 0.
Proof.
  split; [vm_compute; reflexivity|].
  split; apply float_class_ne; vm_compute; discriminate.
Qed.

Lemma adamw_t_below_one_runs_witness :
  ∃ ups ms' vs',
    adamw [vec [1]] [vec [1]] 0.1 (Some 2%nat) 0.9 0.999 1e-8 0 0.01
          (ex_store [vec [0]] [vec [0]])
      = (Ok (ups, 2%nat),
         with_moments 0%nat 1%nat (ms', vs') (ex_store [vec [0]] [vec [0]])) ∧
    ms' !! 0%nat = Some (step_m 0.9 (vec [0]) (vec [1])) ∧
    ups !! 0%nat
      = Some (step_param 0.1 1e-8 0.01 1 1 (step_m 0.9 (vec [0]) (vec [1]))
                (step_v 0.999 (vec [0]) (vec [1])) (vec [1])).
Proof.
  destruct (adamw_t_below_one_runs (F := float) 0.1 0.9 0.999 1e-8 0 0.01
              (ex_store [vec [0]] [vec [0]]) 2%nat 0%nat 1%nat
              [vec [0]] [vec [0]] [vec [1]] [vec [1]] 1 1)
    as (_ & ups & ms' & vs' & Hrun & Hat).
  - lia.
  - apply ex_store_holds.
  - simpl. lia.
  - reflexivity.
  - aligned_cases.
  - reflexivity.
  - reflexivity.
  - destruct (Hat 0%nat (vec [1]) (vec [1]) (vec [0]) (vec [0])
                eq_refl eq_refl eq_refl eq_refl) as (Hm & _ & Hu).
    exists ups, ms', vs'. split; [exact Hrun|]. split; [exact Hm|exact Hu].
Defined.

(** C3, counterexample. A gradient list shorter than the parameter list: the
    call returns. A gradient and moments of shape [(1,)] against a parameter
    of shape [(2,)]: the call returns, the shapes broadcast. A list
    [state["m"]] shorter than the parameters: [IndexError] at index 1, with
    the moments of index 0 already overwritten. *)
Lemma adamw_mismatch_not_rejected :
  adamw [vec [1]; vec [2]] [vec [1]] 0.1 (Some 2%nat) 0.9 0.999 1e-8 1 0.01
        (ex_store [vec [0]; vec [0]] [vec [0]; vec [0]])
    = (Ok ([vec [0.89900000099999999]], 2%nat),
       ex_store [vec [0.099999999999999978]; vec [0]]
                [vec [0.0010000000000000009]; vec [0]]) ∧
  adamw [vec [1; 2]] [vec [1]] 0.1 (Some 2%nat) 0.9 0.999 1e-8 1 0.01
        (ex_store [vec [0]] [vec [0]])
    = (Ok ([vec [0.89900000099999999; 1.898000001]], 2%nat),
       ex_store [vec [0.099999999999999978]] [vec [0.0010000000000000009]]) ∧
  adamw [vec [1]; vec [2]] [vec [1]; vec [1]] 0.1 (Some 2%nat) 0.9 0.999 1e-8
        1 0.01 (ex_store [vec [0]] [vec [0]; vec [0]])
    = (Raise IndexError,
       ex_store [vec [0.099999999999999978]]
                [vec [0.0010000000000000009]; vec [0]]) ∧
  0.099999999999999978 ≠ 0.
Proof.
  split; [vm_compute; reflexivity|].
  split; [vm_compute; reflexivity|].
  split; [vm_compute; reflexivity|].
  apply float_class_ne; vm_compute; discriminate.
Qed.

Lemma adamw_mismatch_fails_late_witness :
  ∃ ms' vs',
    adamw [vec [1]; vec [2]] [vec [1]; vec [1]] 0.1 (Some 2%nat) 0.9 0.999
          1e-8 1 0.01 (ex_store [vec [0]] [vec [0]; vec [0]])
      = (Raise IndexError,
         with_moments 0%nat 1%nat (ms', vs')
           (ex_store [vec [0]] [vec [0]; vec [0]])) ∧
    ms' !! 0%nat = Some (step_m 0.9 (vec [0]) (vec [1])) ∧
    vs' !! 0%nat = Some (step_v 0.999 (vec [0]) (vec [1])) ∧
    vs' !! 1%nat = Some (vec [0]).
Proof.
  destruct (adamw_mismatch_fails_late (F := float) 0.1 0.9 0.999 1e-8
              1 0.01 (ex_store [vec [0]] [vec [0]; vec [0]])
              2%nat 0%nat 1%nat [vec [0]] [vec [0]; vec [0]]
              [vec [1]; vec [2]] [vec [1]; vec [1]] 1%nat (vec [2]) (vec [1])
              IndexError 0.9 0.999)
    as (ms' & vs' & Hrun & _ & _ & Hout & Hat).
  - apply ex_store_holds.
  - reflexivity.
  - reflexivity.
  - aligned_cases.
  - left. split; reflexivity.
  - reflexivity.
  - reflexivity.
  - destruct (Hat 0%nat (vec [1]) (vec [1]) (vec [0]) (vec [0])
                (Nat.lt_0_succ 0) eq_refl eq_refl eq_refl eq_refl)
      as (Hm & Hv).
    exists ms', vs'. split; [exact Hrun|]. split; [exact Hm|].
    split; [exact Hv|]. apply (Hout 1%nat). lia.
Defined.

(** C4, counterexample: [beta1 = 1.5], [beta2 = 2], [epsilon = 0],
    [learning_rate = -0.1], [weight_decay = -0.01]. The call returns and the
    state's moments have been overwritten. *)
Lemma adamw_bad_hyperparameters_accepted :
  adamw [vec [1]] [vec [1]] (-0.1) (Some 2%nat) 1.5 2 0 1 (-0.01)
        (ex_store [vec [0]] [vec [0]])
    = (Ok ([vec [1.099]], 2%nat), ex_store [vec [-0.5]] [vec [-1]]) ∧
  -0.5 ≠ 0 ∧ -1 ≠ 0.
Proof.
  split; [vm_compute; reflexivity|].
  split; apply float_class_ne; vm_compute; discriminate.
Qed.

Lemma adamw_no_hyperparameter_check_witness :
  (∃ ups ms' vs',
     adamw [vec [1]] [vec [1]] (-0.1) (Some 2%nat) 1.5 2 0 1 (-0.01)
           (ex_store [vec [0]] [vec [0]])
       = (Ok (ups, 2%nat),
          with_moments 0%nat 1%nat (ms', vs') (ex_store [vec [0]] [vec [0]])) ∧
     length ups = 1%nat) ∧
  adamw [vec [1]] [vec [1]] 0.1 (Some 2%nat) 0 0.999 1e-8 (-1) 0.01
        (ex_store [vec [0]] [vec [0]])
    = (Raise ZeroDivisionError,
       with_moments 0%nat 1%nat
         (<[0%nat := step_m 0 (vec [0]) (vec [1])]> [vec [0]],
          <[0%nat := step_v 0.999 (vec [0]) (vec [1])]> [vec [0]])
         (ex_store [vec [0]] [vec [0]])).
Proof.
  split.
  - pose proof (adamw_no_hyperparameter_check (F := float) (-0.1) 1.5 2 0 1
                  (-0.01) (ex_store [vec [0]] [vec [0]]) 2%nat 0%nat 1%nat
                  [vec [0]] [vec [0]] (vec [1]) (vec [1]) (vec [0]) (vec [0])
                  [] [] (ex_store_holds _ _) eq_refl) as Hw.
    assert (fpow 1.5 1 = Ok 1.5) as Hp1 by reflexivity.
    assert (fpow 2 1 = Ok 2) as Hp2 by reflexivity.
    rewrite Hp1, Hp2 in Hw.
    destruct Hw as (ups & ms' & vs' & Hrun & Hlen & _);
      [aligned_cases|reflexivity|reflexivity|].
    exists ups, ms', vs'. split; [exact Hrun|exact Hlen].
  - pose proof (adamw_no_hyperparameter_check (F := float) 0.1 0 0.999 1e-8
                  (-1) 0.01 (ex_store [vec [0]] [vec [0]]) 2%nat 0%nat 1%nat
                  [vec [0]] [vec [0]] (vec [1]) (vec [1]) (vec [0]) (vec [0])
                  [] [] (ex_store_holds _ _) eq_refl) as Hw.
    assert (fpow 0 (-1) = Raise ZeroDivisionError) as Hp1 by reflexivity.
    rewrite Hp1 in Hw.
    apply Hw; [aligned_cases|reflexivity|reflexivity].
Defined.

(** C5. Every gradient entry zero and all prior moments zero, with
    [0 < beta1 < 1], [0 < beta2 < 1], [epsilon > 0], a finite
    [learning_rate >= 0], any [weight_decay], and a [t] at which
    [beta1 ** t] and [beta2 ** t] evaluate to numbers below [1.0] (as the
    powers of such bases with [t >= 1] are): the call returns, leaves both
    moments zero, and every returned element is
    [param - learning_rate*weight_decay*param], the adaptive term being a
    zero. It is that float bit for bit, except that where this value is a
    zero the returned zero may carry the other sign (the two are equal under
    [==]). *)
Theorem adamw_zero_gradient_decay
    (learning_rate beta1 beta2 epsilon : float) (t : Z) (weight_decay : float)
    (h : py.heap float) s lm lv params b1t b2t :
  let zeros := np.zeros_like <$> params in
  holds_state h s lm lv zeros zeros →
  Forall np.wf params →
  (0 <? beta1) = true → (beta1 <? 1) = true →
  (0 <? beta2) = true → (beta2 <? 1) = true →
  (0 <? epsilon) = true →
  (0 <=? learning_rate) = true → (learning_rate <? infinity) = true →
  fpow beta1 t = Ok b1t → fpow beta2 t = Ok b2t →
  (b1t <? 1) = true → (b2t <? 1) = true →
  ∃ updated_params,
    adamw params zeros learning_rate (Some s) beta1 beta2 epsilon t
          weight_decay h
      = (Ok (updated_params, s), h) ∧
    length updated_params = length params ∧
    ∀ i p, params !! i = Some p →
      ∃ u, updated_params !! i = Some u ∧ np.shape u = np.shape p ∧
        ∀ k x, np.data p !! k = Some x →
          ∃ y, np.data u !! k = Some y ∧
               same_number y (x - learning_rate * weight_decay * x).
Proof.
  intros zeros Hst Hwf H10 H11 H20 H21 He Hl0 Hl1 Hb1 Hb2 Hp1 Hp2.
  destruct (adamw_zero_moments_call learning_rate beta1 beta2 epsilon t
              weight_decay h s lm lv params b1t b2t Hst Hwf Hb1 Hb2)
    as (ups & Hrun & Hlen & Hat).
  - exact (zero_moment beta1 H10 H11).
  - exact (zero_moment beta2 H20 H21).
  - exists ups. split; [done|]. split; [done|].
    intros i p Hp. destruct (Hat i p Hp) as (u & Hu & Hs & Hk).
    exists u. split; [done|]. split; [done|].
    intros k x Hx. eexists. split; [exact (Hk k x Hx)|].
    apply (sub_zero_plus
             (learning_rate * (0 / (1 - b1t)) / (sqrt (0 / (1 - b2t)) + epsilon))
             (learning_rate * weight_decay * x) x).
    by apply zero_adaptive.
Qed.

(** The sign of a zero is the one thing that can differ: for the element
    [-0.0] the call returns [-0.0], the [0.0] of the adaptive term being
    added to the decay term [-0.0] first, where
    [param - learning_rate*weight_decay*param] is [0.0]. *)
Example zero_gradient_zero_sign :
  adamw_defaults [vec [-0]] [vec [0]] 0.1 (Some 2%nat)
                 (ex_store [vec [0]] [vec [0]])
    = (Ok ([vec [-0]], 2%nat), ex_store [vec [0]] [vec [0]]) ∧
  -0 - 0.1 * 0.01 * -0 = 0 ∧
  same_number (-0) 0 ∧ -0 ≠ 0.
Proof.
  split; [vm_compute; reflexivity|]. split; [vm_compute; reflexivity|].
  split; [by right|]. apply float_class_ne; vm_compute; discriminate.
Qed.

(** C5 at the third step, on the elements [1.0], [-2.0] and [-0.0]; the
    last one comes back as a zero. *)
Lemma adamw_zero_gradient_decay_witness :
  ∃ u,
    adamw [vec [1; -2; -0]] [vec [0; 0; 0]] 0.1 (Some 2%nat) 0.9 0.999 1e-8 3
          0.01 (ex_store [vec [0; 0; 0]] [vec [0; 0; 0]])
      = (Ok ([u], 2%nat), ex_store [vec [0; 0; 0]] [vec [0; 0; 0]]) ∧
    (∃ y, np.data u !! 1%nat = Some y ∧
          same_number y (-2 - 0.1 * 0.01 * -2)) ∧
    (∃ y, np.data u !! 2%nat = Some y ∧
          same_number y (-0 - 0.1 * 0.01 * -0)).
Proof.
  destruct (adamw_zero_gradient_decay 0.1 0.9 0.999 1e-8 3 0.01
              (ex_store [vec [0; 0; 0]] [vec [0; 0; 0]]) 2%nat 0%nat 1%nat
              [vec [1; -2; -0]] 0.7290000000000001 0.997002999)
    as (ups & Hrun & Hlen & Hat).
  - apply ex_store_holds.
  - repeat constructor.
  - reflexivity.
  - reflexivity.
  - reflexivity.
  - reflexivity.
  - reflexivity.
  - reflexivity.
  - reflexivity.
  - vm_compute. reflexivity.
  - vm_compute. reflexivity.
  - reflexivity.
  - reflexivity.
  - destruct (Hat 0%nat (vec [1; -2; -0]) eq_refl) as (u & Hu & _ & Hk).
    destruct ups as [|u0 [|u1 ups]]; simpl in Hlen; try discriminate Hlen.
    simpl in Hu. injection Hu as ->.
    exists u. split; [exact Hrun|].
    split; [exact (Hk 1%nat (-2) eq_refl)|exact (Hk 2%nat (-0) eq_refl)].
Defined.

(** C7 on a state whose two lists are empty. *)
Lemma adamw_empty_witness :
  adamw [] [] 0.1 (Some 2%nat) 0.9 0.999 1e-8 1 0.01 (ex_store [] [])
    = (Ok ([], 2%nat), ex_store [] []).
Proof.
  destruct (adamw_empty (F := float) 0.1 0.9 0.999 1e-8 1 0.01
              (ex_store [] []) (Some 2%nat)) as (s' & h' & Hrun & -> & ->).
  - destruct (ex_store_holds [] []) as (entries & Hs & Hm & Hv & _).
    by exists entries, 0%nat, 1%nat.
  - exact Hrun.
Defined.

(** C8 on two parameters of shapes [(1,)] and [(2,)], at [t = 3]. *)
Lemma adamw_preserves_shapes_witness :
  ∃ u0 u1 ms' vs',
    adamw [vec [1]; vec [2; 3]] [vec [1]; vec [1; -1]] 0.1 (Some 2%nat)
          0.9 0.999 1e-8 3 0.01
          (ex_store [vec [0]; vec [0; 0]] [vec [0]; vec [0; 0]])
      = (Ok ([u0; u1], 2%nat),
         with_moments 0%nat 1%nat (ms', vs')
           (ex_store [vec [0]; vec [0; 0]] [vec [0]; vec [0; 0]])) ∧
    np.shape u0 = [1%nat] ∧ np.shape u1 = [2%nat].
Proof.
  destruct (adamw_preserves_shapes (F := float) 0.1 0.9 0.999 1e-8 3 0.01
              (ex_store [vec [0]; vec [0; 0]] [vec [0]; vec [0; 0]])
              2%nat 0%nat 1%nat [vec [0]; vec [0; 0]] [vec [0]; vec [0; 0]]
              [vec [1]; vec [2; 3]] [vec [1]; vec [1; -1]]
              0.7290000000000001 0.997002999)
    as (ups & ms' & vs' & Hrun & Hlen & _ & _ & Hat).
  - apply ex_store_holds.
  - reflexivity.
  - reflexivity.
  - reflexivity.
  - aligned_cases.
  - vm_compute. reflexivity.
  - vm_compute. reflexivity.
  - destruct (Hat 0%nat (vec [1]) eq_refl)
      as (u0 & _ & _ & Hu0 & _ & _ & Hs0 & _).
    destruct (Hat 1%nat (vec [2; 3]) eq_refl)
      as (u1 & _ & _ & Hu1 & _ & _ & Hs1 & _).
    destruct ups as [|w0 [|w1 [|w2 ups]]]; simpl in Hlen;
      try discriminate Hlen.
    simpl in Hu0, Hu1. injection Hu0 as ->. injection Hu1 as ->.
    exists u0, u1, ms', vs'. split; [exact Hrun|]. split; [exact Hs0|exact Hs1].
Defined.

(** C9 on two stores that hold the same moments in different places. *)
Lemma adamw_deterministic_witness :
  ∃ r ms' vs',
    adamw [vec [1]] [vec [1]] 0.1 (Some 2%nat) 0.9 0.999 1e-8 1 0.01
          (ex_store [vec [0]] [vec [0]])
      = (outcome 2%nat r,
         with_moments 0%nat 1%nat (ms', vs') (ex_store [vec [0]] [vec [0]])) ∧
    adamw [vec [1]] [vec [1]] 0.1 (Some 4%nat) 0.9 0.999 1e-8 1 0.01
          (store_at 4 9 7 [vec [0]] [vec [0]])
      = (outcome 4%nat r,
         with_moments 9%nat 7%nat (ms', vs')
           (store_at 4 9 7 [vec [0]] [vec [0]])).
Proof.
  apply (proj1 (adamw_deterministic (F := float) 0.1 0.9 0.999 1e-8 1 0.01
                  [vec [1]] [vec [1]]) [vec [0]] [vec [0]]).
  - apply ex_store_holds.
  - apply store_at_holds; lia.
Defined.

(** C10 on two parameters and one gradient. *)
Lemma adamw_zip_shortest_witness :
  ∃ u ms' vs',
    adamw [vec [1]; vec [2]] [vec [1]] 0.1 (Some 2%nat) 0.9 0.999 1e-8 1 0.01
          (ex_store [vec [0]; vec [5]] [vec [0]; vec [6]])
      = (Ok ([u], 2%nat),
         with_moments 0%nat 1%nat (ms', vs')
           (ex_store [vec [0]; vec [5]] [vec [0]; vec [6]])) ∧
    ms' !! 1%nat = Some (vec [5]) ∧ vs' !! 1%nat = Some (vec [6]).
Proof.
  destruct (adamw_zip_shortest (F := float) 0.1 0.9 0.999 1e-8 1 0.01
              (ex_store [vec [0]; vec [5]] [vec [0]; vec [6]])
              2%nat 0%nat 1%nat [vec [0]; vec [5]] [vec [0]; vec [6]]
              [vec [1]; vec [2]] [vec [1]] 1%nat 0.9 0.999)
    as (ups & ms' & vs' & Hrun & _ & Hlen & _ & _ & Hout & _).
  - apply ex_store_holds.
  - reflexivity.
  - aligned_cases.
  - reflexivity.
  - reflexivity.
  - destruct (Hout 1%nat) as [Hm Hv]; [lia|].
    destruct ups as [|u [|u1 ups]]; simpl in Hlen; try discriminate Hlen.
    exists u, ms', vs'. split; [exact Hrun|]. split; [exact Hm|exact Hv].
Defined.

(** * Further properties of [adamw] *)

Local Close Scope float_scope.

(** ** Whatever the arguments: what a call keeps and how it can fail *)

Section any_call.
Context {F : Type} `{Float64 F}.
Variables (learning_rate beta1 beta2 epsilon : F) (t : Z) (weight_decay : F).
Implicit Types (h : py.heap F) (params grads ms vs : list (np.ndarray F)).

Local Abbreviation loop := (loop_pure learning_rate beta1 beta2 epsilon t weight_decay).
Local Abbreviation round := (body_pure learning_rate beta1 beta2 epsilon t weight_decay).

(** A round assigns at its own index only, and never past the end. *)
Lemma body_pure_frame i param grad mv :
  length (round i param grad mv).2.1 = length mv.1 ∧
  length (round i param grad mv).2.2 = length mv.2 ∧
  ∀ k, k ≠ i →
    (round i param grad mv).2.1 !! k = mv.1 !! k ∧
    (round i param grad mv).2.2 !! k = mv.2 !! k.
Proof.
  destruct mv as [ms vs]. unfold body_pure. cbn [fst snd].
  destruct (ms !! i) as [m_i|]; [|done].
  destruct (new_m beta1 m_i grad) as [nm|e]; [|done].
  destruct (vs !! i) as [v_i|]; cbn [fst snd].
  - destruct (new_v beta2 v_i grad) as [nv|e]; cbn [fst snd];
      rewrite ?length_insert; (split; [done|]); (split; [done|]);
      intros k Hk; by rewrite ?list_lookup_insert_ne by done.
  - rewrite length_insert. split; [done|]. split; [done|].
    intros k Hk. by rewrite list_lookup_insert_ne by done.
Qed.

Lemma loop_pure_frame pairs : ∀ i acc mv,
  length (loop pairs i acc mv).2.1 = length mv.1 ∧
  length (loop pairs i acc mv).2.2 = length mv.2 ∧
  ∀ k, k < i ∨ i + length pairs ≤ k →
    (loop pairs i acc mv).2.1 !! k = mv.1 !! k ∧
    (loop pairs i acc mv).2.2 !! k = mv.2 !! k.
Proof.
  induction pairs as [|[p g] rest IH]; intros i acc mv; [done|].
  cbn [loop_pure].
  destruct (body_pure_frame i p g mv) as (Hl1 & Hl2 & Hk).
  destruct (round i p g mv) as [[u|e] mv'] eqn:Hr; cbn [fst snd] in *.
  - destruct (IH (S i) (acc ++ [u]) mv') as (Hl1' & Hl2' & Hk').
    split; [congruence|]. split; [congruence|].
    intros k Hlt. simpl in Hlt.
    destruct (Hk' k) as [-> ->]; [lia|]. apply Hk. lia.
  - split; [done|]. split; [done|]. intros k Hlt. apply Hk. simpl in Hlt. lia.
Qed.

(** A loop that returns has appended one array a pair. *)
Lemma loop_pure_length pairs : ∀ i acc mv ups mv',
  loop pairs i acc mv = (Ok ups, mv') →
  length ups = length acc + length pairs.
Proof.
  induction pairs as [|[p g] rest IH]; intros i acc mv ups mv' Hrun.
  - cbn in Hrun. simplify_eq. simpl. lia.
  - cbn [loop_pure] in Hrun.
    destruct (round i p g mv) as [[u|e] mv1]; [|done].
    apply IH in Hrun. rewrite length_app in Hrun. simpl in *. lia.
Qed.

(** NumPy's only objection to two operands is [ValueError]. *)
Lemma np_broadcast2_raises f (a b : np.ndarray F) e :
  np.broadcast2 f a b = Raise e → e = ValueError.
Proof.
  unfold np.broadcast2. destruct (np.broadcast_shapes _ _); congruence.
Qed.

Lemma new_param_raises m_i v_i param e :
  new_param learning_rate beta1 beta2 epsilon t weight_decay m_i v_i param
    = Raise e →
  e = ValueError ∨ fpow beta1 t = Raise e ∨ fpow beta2 t = Raise e.
Proof.
  unfold new_param, mbind, result_mbind, result_bind.
  destruct (fpow beta1 t) as [b1t|e1]; [|intros [= ->]; auto].
  destruct (fpow beta2 t) as [b2t|e2]; [|intros [= ->]; auto].
  destruct (np.divide _ _) as [adaptive|e3] eqn:Hd.
  - destruct (np.add _ _) as [param_update|e4] eqn:Ha.
    + intros He. left. by apply np_broadcast2_raises in He.
    + intros [= ->]. left. by apply np_broadcast2_raises in Ha.
  - intros [= ->]. left. by apply np_broadcast2_raises in Hd.
Qed.

Lemma body_pure_raises i param grad mv e mv' :
  round i param grad mv = (Raise e, mv') →
  e = IndexError ∨ e = ValueError ∨
  fpow beta1 t = Raise e ∨ fpow beta2 t = Raise e.
Proof.
  unfold body_pure.
  destruct (mv.1 !! i) as [m_i|]; [|intros [= <- _]; auto].
  destruct (new_m beta1 m_i grad) as [nm|e1] eqn:Hm.
  - destruct (mv.2 !! i) as [v_i|]; [|intros [= <- _]; auto].
    destruct (new_v beta2 v_i grad) as [nv|e2] eqn:Hv.
    + intros [= He _]. apply new_param_raises in He. tauto.
    + intros [= <- _]. right. left. by apply np_broadcast2_raises in Hv.
  - intros [= <- _]. right. left. by apply np_broadcast2_raises in Hm.
Qed.

Lemma loop_pure_raises pairs : ∀ i acc mv e mv',
  loop pairs i acc mv = (Raise e, mv') →
  e = IndexError ∨ e = ValueError ∨
  fpow beta1 t = Raise e ∨ fpow beta2 t = Raise e.
Proof.
  induction pairs as [|[p g] rest IH]; intros i acc mv e mv' Hrun; [done|].
  cbn [loop_pure] in Hrun.
  destruct (round i p g mv) as [[u|e1] mv1] eqn:Hr.
  - by apply IH in Hrun.
  - simplify_eq. by apply body_pure_raises in Hr.
Qed.

(** X1. [state["m"]] is read before [state["v"]] and both before the loop:
    a state dict that lacks ["m"] makes the call fail with [KeyError("m")],
    one that has ["m"] but lacks ["v"] with [KeyError("v")], in either case
    with the store as it was, whatever the other arguments are. An empty
    dict is not taken for a missing state. *)
Theorem adamw_missing_key h s entries params grads :
  h !! s = Some (py.Dict entries) →
  (entries !! "m" = None →
   adamw params grads learning_rate (Some s) beta1 beta2 epsilon t
         weight_decay h = (Raise (KeyError "m"), h)) ∧
  (∀ lm, entries !! "m" = Some lm → entries !! "v" = None →
   adamw params grads learning_rate (Some s) beta1 beta2 epsilon t
         weight_decay h = (Raise (KeyError "v"), h)).
Proof.
  intros Hs. split.
  - intros Hm. unfold adamw, mbind, M_bind, py.bind, mret, M_ret, py.ret,
      py.dict_getitem. by rewrite Hs, Hm.
  - intros lm Hm Hv. unfold adamw, mbind, M_bind, py.bind, mret, M_ret,
      py.ret, py.dict_getitem. by rewrite Hs, Hm, Hs, Hv.
Qed.

(** X2. Whatever the arguments and whether the call returns or raises, the
    state stays a state of the same two lists, neither list changes its
    length, the entries at the indices [zip] does not reach (from
    [min(len(params), len(grads))] on) are as they were, and no other
    object of the store is touched. *)
Theorem adamw_keeps_state h s lm lv ms vs params grads :
  holds_state h s lm lv ms vs →
  ∃ r ms' vs' h',
    adamw params grads learning_rate (Some s) beta1 beta2 epsilon t
          weight_decay h = (outcome s r, h') ∧
    holds_state h' s lm lv ms' vs' ∧
    length ms' = length ms ∧ length vs' = length vs ∧
    (∀ k, length params `min` length grads ≤ k →
       ms' !! k = ms !! k ∧ vs' !! k = vs !! k) ∧
    (∀ l, l ≠ lm → l ≠ lv → h' !! l = h !! l).
Proof.
  intros Hst.
  pose proof (adamw_from_contents learning_rate beta1 beta2 epsilon t
                weight_decay h s lm lv ms vs params grads Hst) as Hcall.
  cbn zeta in Hcall. unfold adamw_pure in Hcall.
  destruct (loop_pure_frame (zip params grads) 0 [] (ms, vs))
    as (Hl1 & Hl2 & Hk).
  destruct (loop (zip params grads) 0 [] (ms, vs)) as [r [ms' vs']].
  cbn [fst snd] in *.
  exists r, ms', vs', (with_moments lm lv (ms', vs') h).
  split; [done|].
  split; [apply (holds_state_with_moments h s lm lv ms vs (ms', vs') Hst)|].
  split; [done|]. split; [done|]. split.
  - intros k Hle. apply Hk. rewrite length_zip. lia.
  - intros l Hlm Hlv. by apply with_moments_lookup_ne.
Qed.

(** X3. A call that returns, on whatever arguments, returns exactly
    [min(len(params), len(grads))] updated parameters together with the
    state it was given. *)
Theorem adamw_result_length h s lm lv ms vs params grads updated_params s' h' :
  holds_state h s lm lv ms vs →
  adamw params grads learning_rate (Some s) beta1 beta2 epsilon t
        weight_decay h = (Ok (updated_params, s'), h') →
  length updated_params = length params `min` length grads ∧ s' = s.
Proof.
  intros Hst.
  rewrite (adamw_from_contents learning_rate beta1 beta2 epsilon t
             weight_decay h s lm lv ms vs params grads Hst).
  cbn zeta. unfold adamw_pure.
  destruct (loop (zip params grads) 0 [] (ms, vs)) as [[ups|e] mv'] eqn:Hrun;
    cbn; [|done].
  intros [= <- <- _]. apply loop_pure_length in Hrun.
  rewrite length_zip in Hrun. simpl in Hrun. by split.
Qed.

(** Where an exception of a call on a state comes from: a moment list too
    short ([IndexError]), shapes that do not broadcast ([ValueError]), or
    one of the two powers. *)
Lemma adamw_raise_origin h s lm lv ms vs params grads e h' :
  holds_state h s lm lv ms vs →
  adamw params grads learning_rate (Some s) beta1 beta2 epsilon t
        weight_decay h = (Raise e, h') →
  e = IndexError ∨ e = ValueError ∨
  fpow beta1 t = Raise e ∨ fpow beta2 t = Raise e.
Proof.
  intros Hst.
  rewrite (adamw_from_contents learning_rate beta1 beta2 epsilon t
             weight_decay h s lm lv ms vs params grads Hst).
  cbn zeta. unfold adamw_pure.
  destruct (loop (zip params grads) 0 [] (ms, vs)) as [[ups|e1] mv'] eqn:Hrun;
    cbn; [done|].
  intros [= <- _]. by apply loop_pure_raises in Hrun.
Qed.
End any_call.

(** ** A state whose lists are too short, or are one list *)

Section odd_states.
Context {F : Type} `{Float64 F}.
Variables (learning_rate beta1 beta2 epsilon : F) (t : Z) (weight_decay : F).
Implicit Types (h : py.heap F) (params grads ms vs ls : list (np.ndarray F)).

Local Abbreviation loop := (loop_pure learning_rate beta1 beta2 epsilon t weight_decay).
Local Abbreviation sm := (step_m beta1).
Local Abbreviation sv := (step_v beta2).
Local Abbreviation sp := (step_param learning_rate epsilon weight_decay).

(** The loop up to an index [k] whose earlier indices are aligned: the
    rounds before [k] have stored their moments, and the loop goes on with
    the pair at [k]. *)
Lemma loop_pure_upto b1t b2t params grads ms vs k p_k g_k :
  params !! k = Some p_k → grads !! k = Some g_k →
  aligned_upto k params grads ms vs →
  fpow beta1 t = Ok b1t → fpow beta2 t = Ok b2t →
  ∃ ups ms' vs',
    loop (zip params grads) 0 [] (ms, vs)
      = loop ((p_k, g_k) :: drop (S k) (zip params grads)) k ups (ms', vs') ∧
    length ms' = length ms ∧ length vs' = length vs ∧
    (∀ j, k ≤ j → ms' !! j = ms !! j ∧ vs' !! j = vs !! j) ∧
    (∀ i p g m v,
       i < k →
       params !! i = Some p → grads !! i = Some g →
       ms !! i = Some m → vs !! i = Some v →
       ms' !! i = Some (sm m g) ∧ vs' !! i = Some (sv v g)).
Proof.
  intros Hpk Hgk Hal Hb1 Hb2.
  set (pairs := zip params grads).
  assert (pairs !! k = Some (p_k, g_k)) as Hpair by (by apply lookup_zip_Some).
  apply lookup_lt_Some in Hpair as Hk.
  destruct (loop_pure_aligned learning_rate beta1 beta2 epsilon t weight_decay
              b1t b2t (take k pairs) 0 [] ms vs Hb1 Hb2)
    as (ups & ms' & vs' & Hrun & Hlen & Hlms & Hlvs & Hout & Hin).
  { intros j p g [Hj Hlt]%lookup_take_Some.
    apply lookup_zip_Some in Hj as [Hp Hg].
    destruct (Hal j Hlt) as (p' & g' & m & v & ? & ? & ? & ? & ?).
    simplify_eq. by exists m, v. }
  rewrite length_take_le in Hout by lia.
  exists ups, ms', vs'. split.
  - rewrite <- (take_drop k pairs) at 1. rewrite loop_pure_app, Hrun.
    rewrite length_take_le by lia. cbn [Nat.add app].
    by rewrite (drop_S _ (p_k, g_k)) by done.
  - split; [done|]. split; [done|]. split.
    + intros j Hj. apply Hout. lia.
    + intros i p g m v Hi Hp Hg Hm Hv.
      destruct (Hin i p g m v) as (? & ? & _); [|done..].
      apply lookup_take_Some. split; [|done]. by apply lookup_zip_Some.
Qed.

(** X5. When [state["v"]] lacks an index [k] that [state["m"]] has, the call
    fails with [IndexError] between the two assignments of round [k]:
    [m[k]] has already been overwritten with its new value (as have both
    moments of every index before [k]), while [state["v"]] has no entry to
    go with it; the two lists are left one step apart. *)
Theorem adamw_short_v_leaves_m_ahead
    h s lm lv ms vs params grads k p_k g_k m_k nm b1t b2t :
  holds_state h s lm lv ms vs →
  params !! k = Some p_k → grads !! k = Some g_k →
  aligned_upto k params grads ms vs →
  ms !! k = Some m_k → new_m beta1 m_k g_k = Ok nm →
  vs !! k = None →
  fpow beta1 t = Ok b1t → fpow beta2 t = Ok b2t →
  ∃ ms' vs',
    adamw params grads learning_rate (Some s) beta1 beta2 epsilon t
          weight_decay h
      = (Raise IndexError, with_moments lm lv (ms', vs') h) ∧
    ms' !! k = Some nm ∧
    length ms' = length ms ∧ length vs' = length vs ∧
    (∀ j, k < j → ms' !! j = ms !! j) ∧
    (∀ i p g m v,
       i < k →
       params !! i = Some p → grads !! i = Some g →
       ms !! i = Some m → vs !! i = Some v →
       ms' !! i = Some (sm m g) ∧ vs' !! i = Some (sv v g)).
Proof.
  intros Hst Hpk Hgk Hal Hmk Hnm Hvk Hb1 Hb2.
  pose proof (adamw_from_contents learning_rate beta1 beta2 epsilon t
                weight_decay h s lm lv ms vs params grads Hst) as Hcall.
  unfold adamw_pure in Hcall. cbn zeta in Hcall.
  destruct (loop_pure_upto b1t b2t params grads ms vs k p_k g_k)
    as (ups & ms' & vs' & Hrun & Hlms & Hlvs & Hout & Hin); [done..|].
  rewrite Hrun in Hcall. cbn [loop_pure] in Hcall.
  unfold body_pure in Hcall. cbn [fst snd] in Hcall.
  destruct (Hout k) as [Hmk' Hvk']; [lia|].
  rewrite Hmk', Hmk, Hnm, Hvk', Hvk in Hcall. cbn [fst snd] in Hcall.
  exists (<[k := nm]> ms'), vs'. split; [done|].
  apply lookup_lt_Some in Hmk as Hlt.
  split; [by rewrite list_lookup_insert_eq by lia|].
  split; [by rewrite length_insert|]. split; [done|]. split.
  - intros j Hj. rewrite list_lookup_insert_ne by lia.
    apply Hout. lia.
  - intros i p g m v Hi Hp Hg Hm Hv.
    rewrite list_lookup_insert_ne by lia. by apply (Hin i p g m v).
Qed.

(** *** One list under both keys

    Nothing makes [state["m"]] and [state["v"]] two lists. When both keys
    name the list [l], line 51 reads at [v[i]] the first moment line 50 has
    just stored there, and lines 53 and 54 both read what line 51 stored.
    [body_shared] and [loop_shared] are [body] and [for_loop] over the
    contents [ls] of that one list. *)
Definition body_shared (i : nat) (param grad : np.ndarray F)
    (ls : list (np.ndarray F)) : result (np.ndarray F) * list (np.ndarray F) :=
  match ls !! i with
  | None => (Raise IndexError, ls)
  | Some m_i =>
      match new_m beta1 m_i grad with
      | Raise e => (Raise e, ls)
      | Ok nm =>
          match new_v beta2 nm grad with
          | Raise e => (Raise e, <[i := nm]> ls)
          | Ok nv =>
              (new_param learning_rate beta1 beta2 epsilon t weight_decay
                         nv nv param,
               <[i := nv]> ls)
          end
      end
  end.

Fixpoint loop_shared (pairs : list (np.ndarray F * np.ndarray F)) (i : nat)
    (updated_params : list (np.ndarray F)) (ls : list (np.ndarray F))
    : result (list (np.ndarray F)) * list (np.ndarray F) :=
  match pairs with
  | [] => (Ok updated_params, ls)
  | (param, grad) :: rest =>
      match body_shared i param grad ls with
      | (Ok updated_param, ls') =>
          loop_shared rest (S i) (updated_params ++ [updated_param]) ls'
      | (Raise e, ls') => (Raise e, ls')
      end
  end.

Lemma body_shared_refines h l ls i param grad :
  body learning_rate beta1 beta2 epsilon t weight_decay l l i param grad
       (<[l := py.List ls]> h)
  = ((body_shared i param grad ls).1,
     <[l := py.List (body_shared i param grad ls).2]> h).
Proof.
  unfold body, body_shared, mbind, M_bind, py.bind, py.list_getitem,
    py.list_setitem, py.lift.
  rewrite lookup_insert_eq.
  destruct (ls !! i) as [m_i|] eqn:Hmi; [|done].
  fold (new_m beta1 m_i grad).
  destruct (new_m beta1 m_i grad) as [nm|e]; [|done].
  rewrite lookup_insert_eq.
  apply lookup_lt_Some in Hmi as Hlen.
  rewrite decide_True by done.
  rewrite insert_insert_eq, lookup_insert_eq.
  rewrite list_lookup_insert_eq by done.
  fold (new_v beta2 nm grad).
  destruct (new_v beta2 nm grad) as [nv|e]; [|done].
  cbn zeta. rewrite lookup_insert_eq.
  rewrite decide_True by (by rewrite length_insert).
  rewrite insert_insert_eq, list_insert_insert_eq.
  rewrite lookup_insert_eq. rewrite list_lookup_insert_eq by done.
  unfold new_param, mbind, result_mbind, result_bind.
  destruct (fpow beta1 t) as [b1t|e]; [|done].
  rewrite lookup_insert_eq. rewrite list_lookup_insert_eq by done.
  destruct (fpow beta2 t) as [b2t|e]; [|done].
  destruct (np.divide _ _) as [adaptive|e]; [|done].
  by destruct (np.add _ _) as [param_update|e].
Qed.

Lemma loop_shared_refines h l pairs : ∀ ls i acc,
  for_loop learning_rate beta1 beta2 epsilon t weight_decay l l pairs i acc
           (<[l := py.List ls]> h)
  = ((loop_shared pairs i acc ls).1,
     <[l := py.List (loop_shared pairs i acc ls).2]> h).
Proof.
  induction pairs as [|[param grad] rest IH]; intros ls i acc; [done|].
  cbn [for_loop loop_shared]. unfold mbind, M_bind, py.bind.
  rewrite body_shared_refines.
  destruct (body_shared i param grad ls) as [[u|e] ls']; cbn [fst snd].
  - apply IH.
  - done.
Qed.

Lemma body_shared_aligned b1t b2t i param grad m_i ls :
  fpow beta1 t = Ok b1t → fpow beta2 t = Ok b2t →
  ls !! i = Some m_i → aligned param grad m_i m_i →
  body_shared i param grad ls
  = (Ok (sp b1t b2t (sv (sm m_i grad) grad) (sv (sm m_i grad) grad) param),
     <[i := sv (sm m_i grad) grad]> ls).
Proof.
  intros Hb1 Hb2 Hm (Hp & Hg & Hwm & _ & Hsg & Hsm & _).
  unfold body_shared. rewrite Hm.
  rewrite new_m_aligned by congruence.
  assert (np.wf (sm m_i grad)) by (apply step_m_wf; congruence).
  rewrite new_v_aligned by (try done; simpl; congruence).
  assert (np.wf (sv (sm m_i grad) grad))
    by (apply step_v_wf; try done; simpl; congruence).
  by rewrite (new_param_aligned _ _ _ _ _ _ b1t b2t) by done.
Qed.

Lemma loop_shared_aligned b1t b2t pairs : ∀ i acc ls,
  fpow beta1 t = Ok b1t → fpow beta2 t = Ok b2t →
  (∀ j p g, pairs !! j = Some (p, g) →
     ∃ m, ls !! (i + j) = Some m ∧ aligned p g m m) →
  ∃ ups ls',
    loop_shared pairs i acc ls = (Ok (acc ++ ups), ls') ∧
    length ups = length pairs ∧
    (∀ k, k < i ∨ i + length pairs ≤ k → ls' !! k = ls !! k) ∧
    (∀ j p g m, pairs !! j = Some (p, g) → ls !! (i + j) = Some m →
       ls' !! (i + j) = Some (sv (sm m g) g) ∧
       ups !! j = Some (sp b1t b2t (sv (sm m g) g) (sv (sm m g) g) p)).
Proof.
  induction pairs as [|[p g] rest IH]; intros i acc ls Hb1 Hb2 Hal.
  - exists [], ls. rewrite app_nil_r. repeat split; try done.
  - destruct (Hal 0 p g eq_refl) as (m & Hm & Ha).
    rewrite Nat.add_0_r in Hm. apply lookup_lt_Some in Hm as Hlm.
    set (nv := sv (sm m g) g).
    destruct (IH (S i) (acc ++ [sp b1t b2t nv nv p]) (<[i := nv]> ls) Hb1 Hb2)
      as (ups & ls' & Hrun & Hlen & Hout & Hin).
    { intros j p' g' Hj. destruct (Hal (S j) p' g' Hj) as (m' & ? & ?).
      exists m'. rewrite list_lookup_insert_ne by lia.
      by replace (S i + j) with (i + S j) by lia. }
    exists (sp b1t b2t nv nv p :: ups), ls'.
    split; [|split; [|split]].
    + cbn [loop_shared]. rewrite (body_shared_aligned b1t b2t _ _ _ m) by done.
      fold nv. rewrite Hrun. by rewrite <- app_assoc.
    + simpl. by rewrite Hlen.
    + intros k Hk. simpl in Hk. rewrite Hout by lia.
      by rewrite list_lookup_insert_ne by lia.
    + intros [|j] p' g' m' Hj Hm'.
      * rewrite Nat.add_0_r in *. simpl in Hj. simplify_eq.
        rewrite Hout by lia. by rewrite list_lookup_insert_eq by done.
      * simpl in Hj. replace (i + S j) with (S i + j) in * by lia.
        apply (Hin j p' g' m' Hj). by rewrite list_lookup_insert_ne by lia.
Qed.

(** X6. A state whose ["m"] and ["v"] are one and the same list is accepted
    without an error, and the first moment is lost: on aligned inputs the
    call returns, the shared entry at every index ends as the second-moment
    rule applied to the first moment just computed,
    [beta2*(beta1*m + (1-beta1)*grad) + (1-beta2)*grad^2], and the updated
    parameter is computed with that one array as both [m] and [v]. *)
Theorem adamw_one_list_for_both_moments
    h s entries l ls params grads b1t b2t :
  h !! s = Some (py.Dict entries) →
  entries !! "m" = Some l → entries !! "v" = Some l →
  h !! l = Some (py.List ls) →
  (∀ i, i < length params `min` length grads →
     ∃ p g m, params !! i = Some p ∧ grads !! i = Some g ∧
              ls !! i = Some m ∧ aligned p g m m) →
  fpow beta1 t = Ok b1t → fpow beta2 t = Ok b2t →
  ∃ updated_params ls',
    adamw params grads learning_rate (Some s) beta1 beta2 epsilon t
          weight_decay h
      = (Ok (updated_params, s), <[l := py.List ls']> h) ∧
    length updated_params = length params `min` length grads ∧
    ∀ i p g m,
      params !! i = Some p → grads !! i = Some g → ls !! i = Some m →
      ls' !! i = Some (sv (sm m g) g) ∧
      updated_params !! i
        = Some (sp b1t b2t (sv (sm m g) g) (sv (sm m g) g) p).
Proof.
  intros Hs Hm Hv Hl Hal Hb1 Hb2.
  pose proof (list_not_dict _ _ _ _ _ Hl Hs) as Hsl.
  destruct (loop_shared_aligned b1t b2t (zip params grads) 0 [] ls Hb1 Hb2)
    as (ups & ls' & Hrun & Hlen & _ & Hin).
  { intros j p g [Hp Hg]%lookup_zip_Some.
    apply lookup_lt_Some in Hp as ?. apply lookup_lt_Some in Hg as ?.
    destruct (Hal j) as (p' & g' & m & ? & ? & ? & ?); [lia|].
    simplify_eq. by exists m. }
  exists ups, ls'. rewrite length_zip in Hlen. split; [|split; [done|]].
  - unfold adamw, mbind, M_bind, py.bind, mret, M_ret, py.ret,
      py.dict_getitem.
    rewrite Hs, Hm, Hs, Hv.
    rewrite <- (insert_id h l (py.List ls)) at 1 by done.
    rewrite loop_shared_refines, Hrun. cbn [fst snd].
    unfold py.dict_setitem.
    rewrite lookup_insert_ne, Hs by done.
    rewrite (insert_id entries) by done.
    rewrite (insert_id (<[l := _]> h)) by (by rewrite lookup_insert_ne).
    rewrite lookup_insert_ne, Hs by done.
    rewrite (insert_id entries) by done.
    by rewrite (insert_id (<[l := _]> h)) by (by rewrite lookup_insert_ne).
  - intros i p g m Hp Hg Hmi.
    apply (Hin i p g m); [by apply lookup_zip_Some|done].
Qed.
End odd_states.

(** ** First call and next call *)

Section steps.
Context {F : Type} `{Float64 F}.
Variables (learning_rate beta1 beta2 epsilon weight_decay : F).
Implicit Types (h : py.heap F) (params grads ms vs : list (np.ndarray F)).

Local Abbreviation sm := (step_m beta1).
Local Abbreviation sv := (step_v beta2).
Local Abbreviation sp := (step_param learning_rate epsilon weight_decay).

(** Gradients of the shapes of the parameters, index by index. *)
Definition grads_fit (params grads : list (np.ndarray F)) : Prop :=
  length grads = length params ∧
  ∀ i p g, params !! i = Some p → grads !! i = Some g →
    np.wf g ∧ np.shape g = np.shape p.

(** X7. The first call of a run, [state = None], with gradients of the
    parameters' shapes and hyperparameters at which [beta1 ** t] and
    [beta2 ** t] evaluate, to [b1t] and [b2t]: it returns one updated
    parameter a parameter and a new state (an object the store did not
    hold) whose moments are the rule applied to all-zero moments,
    [m[i] = beta1*0 + (1-beta1)*grad[i]] and
    [v[i] = beta2*0 + (1-beta2)*grad[i]^2], elementwise. *)
Theorem adamw_None_first_step (t : Z) h params grads b1t b2t :
  Forall np.wf params →
  grads_fit params grads →
  fpow beta1 t = Ok b1t →
  fpow beta2 t = Ok b2t →
  ∃ updated_params s lm lv ms' vs' h',
    adamw params grads learning_rate None beta1 beta2 epsilon t weight_decay h
      = (Ok (updated_params, s), h') ∧
    (s ∉ dom h) ∧
    holds_state h' s lm lv ms' vs' ∧
    length updated_params = length params ∧
    ∀ i p g, params !! i = Some p → grads !! i = Some g →
      ms' !! i = Some (sm (np.zeros_like p) g) ∧
      vs' !! i = Some (sv (np.zeros_like p) g) ∧
      updated_params !! i
        = Some (sp b1t b2t (sm (np.zeros_like p) g) (sv (np.zeros_like p) g) p).
Proof.
  intros Hwf [Hlen Hfit] Hb1 Hb2.
  destruct (fresh_state_spec params h)
    as (s & lm & lv & _ & _ & Hs & Hfresh & Hst).
  cbn zeta in Hfresh, Hst.
  set (zeros := np.zeros_like <$> params) in *.
  destruct (adamw_aligned_prefix learning_rate beta1 beta2 epsilon t
              weight_decay _ s lm lv zeros zeros params grads (length params)
              b1t b2t Hst)
    as (ups & ms' & vs' & Hrun & Hl & _ & _ & _ & Hin); [lia| |done..|].
  { intros i Hi. destruct (lookup_lt_is_Some_2 params i Hi) as [p Hp].
    destruct (lookup_lt_is_Some_2 grads i) as [g Hg]; [lia|].
    destruct (Hfit i p g Hp Hg) as [Hwg Hsg].
    pose proof (Forall_lookup_1 _ _ _ _ Hwf Hp) as Hwp.
    pose proof (zeros_like_lookup params i p Hp) as Hz.
    exists p, g, (np.zeros_like p), (np.zeros_like p).
    repeat split; auto using np_zeros_like_wf. }
  exists ups, s, lm, lv, ms', vs'. eexists.
  split.
  { rewrite (adamw_None_unfold _ _ _ _ _ _ params grads h s _ Hfresh).
    exact Hrun. }
  split; [done|].
  split; [apply (holds_state_with_moments _ _ _ _ _ _ (ms', vs') Hst)|].
  split; [done|].
  intros i p g Hp Hg. pose proof (zeros_like_lookup params i p Hp) as Hz.
  by apply (Hin i p g).
Qed.

(** X8. What a call returns is what the next call takes. After a call on
    aligned inputs, at a [t1] at which both powers evaluate, the updated
    parameters and the state, with any new gradients of the parameters'
    shapes, are aligned again; so the next call, at any [t2] at which both
    powers evaluate, returns too, and its moments are the rule applied
    twice, once a gradient. *)
Theorem adamw_next_step (t1 t2 : Z) h s lm lv ms vs params grads1 grads2
    b1 b2 c1 c2 :
  holds_state h s lm lv ms vs →
  length grads1 = length params →
  aligned_upto (length params) params grads1 ms vs →
  grads_fit params grads2 →
  fpow beta1 t1 = Ok b1 → fpow beta2 t1 = Ok b2 →
  fpow beta1 t2 = Ok c1 → fpow beta2 t2 = Ok c2 →
  ∃ ups1 ms1 vs1 h1 ups2 ms2 vs2 h2,
    adamw params grads1 learning_rate (Some s) beta1 beta2 epsilon t1
          weight_decay h = (Ok (ups1, s), h1) ∧
    holds_state h1 s lm lv ms1 vs1 ∧
    aligned_upto (length params) ups1 grads2 ms1 vs1 ∧
    adamw ups1 grads2 learning_rate (Some s) beta1 beta2 epsilon t2
          weight_decay h1 = (Ok (ups2, s), h2) ∧
    holds_state h2 s lm lv ms2 vs2 ∧
    length ups2 = length params ∧
    ∀ i g1 g2 m v,
      grads1 !! i = Some g1 → grads2 !! i = Some g2 →
      ms !! i = Some m → vs !! i = Some v →
      ms2 !! i = Some (sm (sm m g1) g2) ∧
      vs2 !! i = Some (sv (sv v g1) g2).
Proof.
  intros Hst Hlen1 Hal [Hlen2 Hfit] Hb1 Hb2 Hc1 Hc2.
  destruct (adamw_aligned_prefix learning_rate beta1 beta2 epsilon t1
              weight_decay h s lm lv ms vs params grads1 (length params)
              b1 b2 Hst)
    as (ups1 & ms1 & vs1 & Hrun1 & Hl1 & _ & _ & _ & Hin1); [lia|done..|].
  pose proof (holds_state_with_moments _ _ _ _ _ _ (ms1, vs1) Hst) as Hst1.
  cbn [fst snd] in Hst1.
  assert (aligned_upto (length params) ups1 grads2 ms1 vs1) as Hal1.
  { intros i Hi.
    destruct (Hal i Hi) as (p & g1 & m & v & Hp & Hg1 & Hm & Hv & Ha).
    destruct (lookup_lt_is_Some_2 grads2 i) as [g2 Hg2]; [lia|].
    destruct (Hfit i p g2 Hp Hg2) as [Hwg2 Hsg2].
    destruct (Hin1 i p g1 m v Hp Hg1 Hm Hv) as (Hm1 & Hv1' & Hu1).
    destruct Ha as (Hwp & Hwg & Hwm & Hwv & Hsg & Hsm & Hsv).
    eexists _, g2, _, _. split; [exact Hu1|]. split; [done|].
    split; [exact Hm1|]. split; [exact Hv1'|].
    assert (np.wf (sm m g1)) by (apply step_m_wf; congruence).
    assert (np.wf (sv v g1)) by (apply step_v_wf; congruence).
    split; [by apply step_param_wf|]. by repeat split. }
  destruct (adamw_aligned_prefix learning_rate beta1 beta2 epsilon t2
              weight_decay _ s lm lv ms1 vs1 ups1 grads2 (length params)
              c1 c2 Hst1)
    as (ups2 & ms2 & vs2 & Hrun2 & Hl2 & _ & _ & _ & Hin2); [lia|done..|].
  exists ups1, ms1, vs1. eexists. exists ups2, ms2, vs2. eexists.
  split; [exact Hrun1|]. split; [done|]. split; [done|].
  split; [exact Hrun2|].
  split; [apply (holds_state_with_moments _ _ _ _ _ _ (ms2, vs2) Hst1)|].
  split; [done|].
  intros i g1 g2 m v Hg1 Hg2 Hm Hv.
  apply lookup_lt_Some in Hg1 as Hi. rewrite Hlen1 in Hi.
  destruct (lookup_lt_is_Some_2 params i Hi) as [p Hp].
  destruct (Hin1 i p g1 m v Hp Hg1 Hm Hv) as (Hm1 & Hv1' & Hu1).
  destruct (Hin2 i _ g2 _ _ Hu1 Hg2 Hm1 Hv1') as (? & ? & _). by split.
Qed.
End steps.

(** ** The further properties on binary64 *)

Local Open Scope float_scope.

(** A store whose state dict, at 1, names the list at 0 under both keys. *)
Definition shared_store (ls : list (np.ndarray float)) : py.heap float :=
  <[1%nat := py.Dict (<["m" := 0%nat]> (<["v" := 0%nat]> ∅))]>
    (<[0%nat := py.List ls]> ∅).

(** X1 on an empty dict passed as state. *)
Lemma adamw_missing_key_witness :
  adamw [vec [1]] [vec [1]] 0.1 (Some 0%nat) 0.9 0.999 1e-8 1 0.01
        (<[0%nat := py.Dict ∅]> ∅)
    = (Raise (KeyError "m"), <[0%nat := py.Dict ∅]> ∅).
Proof.
  destruct (adamw_missing_key (F := float) 0.1 0.9 0.999 1e-8 1 0.01
              (<[0%nat := py.Dict ∅]> ∅) 0%nat ∅ [vec [1]] [vec [1]])
    as [Hm _].
  - vm_compute. reflexivity.
  - apply Hm. vm_compute. reflexivity.
Defined.

(** X2 on a call that raises: [state["m"]] is shorter than the parameters. *)
Lemma adamw_keeps_state_witness :
  ∃ r ms' vs' h',
    adamw [vec [1]; vec [2]] [vec [1]; vec [1]] 0.1 (Some 2%nat) 0.9 0.999
          1e-8 1 0.01 (ex_store [vec [0]] [vec [0]; vec [0]])
      = (outcome 2%nat r, h') ∧
    holds_state h' 2%nat 0%nat 1%nat ms' vs' ∧
    length ms' = 1%nat ∧ length vs' = 2%nat.
Proof.
  destruct (adamw_keeps_state (F := float) 0.1 0.9 0.999 1e-8 1 0.01
              (ex_store [vec [0]] [vec [0]; vec [0]]) 2%nat 0%nat 1%nat
              [vec [0]] [vec [0]; vec [0]]
              [vec [1]; vec [2]] [vec [1]; vec [1]])
    as (r & ms' & vs' & h' & Hrun & Hst & Hlm & Hlv & _).
  - apply ex_store_holds.
  - exists r, ms', vs', h'.
    split; [exact Hrun|]. split; [exact Hst|]. split; [exact Hlm|exact Hlv].
Defined.

(** X3 on two parameters and one gradient. *)
Lemma adamw_result_length_witness :
  length [vec [0.89900000099999999]] = 1%nat ∧ 2%nat = 2%nat.
Proof.
  apply (adamw_result_length (F := float) 0.1 0.9 0.999 1e-8 1 0.01
           (ex_store [vec [0]; vec [0]] [vec [0]; vec [0]]) 2%nat 0%nat 1%nat
           [vec [0]; vec [0]] [vec [0]; vec [0]]
           [vec [1]; vec [2]] [vec [1]] [vec [0.89900000099999999]] 2%nat
           (ex_store [vec [0.099999999999999978]; vec [0]]
                     [vec [0.0010000000000000009]; vec [0]])).
  - apply ex_store_holds.
  - vm_compute. reflexivity.
Defined.

(** X4. On a state (a dict with its two lists) a call never fails with
    [KeyError] or [TypeError]: an exception that leaves it is [IndexError]
    (a moment list too short), [ValueError] (shapes that do not broadcast),
    or one of the two exceptions of [beta1 ** t] and [beta2 ** t],
    [ZeroDivisionError] and [OverflowError]. *)
Theorem adamw_error_kinds
    (learning_rate beta1 beta2 epsilon : float) (t : Z) (weight_decay : float)
    (h : py.heap float) s lm lv ms vs params grads e h' :
  holds_state h s lm lv ms vs →
  adamw params grads learning_rate (Some s) beta1 beta2 epsilon t
        weight_decay h = (Raise e, h') →
  e = IndexError ∨ e = ValueError ∨
  e = ZeroDivisionError ∨ e = OverflowError.
Proof.
  intros Hst Hrun.
  destruct (adamw_raise_origin _ _ _ _ _ _ _ _ _ _ _ _ _ _ _ _ Hst Hrun)
    as [->| [->| [Hp|Hp]]]; auto;
    apply float_pow_raises in Hp as [->| ->]; auto.
Qed.

(** X4 on a [t] too large to convert to a float, on a short [state["m"]],
    and on a zero base with a negative exponent. *)
Lemma adamw_error_kinds_witness :
  (OverflowError = IndexError ∨ OverflowError = ValueError ∨
   OverflowError = ZeroDivisionError ∨ OverflowError = OverflowError) ∧
  (IndexError = IndexError ∨ IndexError = ValueError ∨
   IndexError = ZeroDivisionError ∨ IndexError = OverflowError) ∧
  (ZeroDivisionError = IndexError ∨ ZeroDivisionError = ValueError ∨
   ZeroDivisionError = ZeroDivisionError ∨
   ZeroDivisionError = OverflowError).
Proof.
  split; [|split].
  - apply (adamw_error_kinds 0.1 0.9 0.999 1e-8 (2 ^ 1024) 0.01
             (ex_store [vec [0]] [vec [0]]) 2%nat 0%nat 1%nat
             [vec [0]] [vec [0]] [vec [1]] [vec [1]] OverflowError
             (ex_store [vec [0.099999999999999978]]
                       [vec [0.0010000000000000009]])).
    + apply ex_store_holds.
    + vm_compute. reflexivity.
  - apply (adamw_error_kinds 0.1 0.9 0.999 1e-8 1 0.01
             (ex_store [vec [0]] [vec [0]; vec [0]]) 2%nat 0%nat 1%nat
             [vec [0]] [vec [0]; vec [0]]
             [vec [1]; vec [2]] [vec [1]; vec [1]] IndexError
             (ex_store [vec [0.099999999999999978]]
                       [vec [0.0010000000000000009]; vec [0]])).
    + apply ex_store_holds.
    + vm_compute. reflexivity.
  - apply (adamw_error_kinds 0.1 0 0.999 1e-8 (-1) 0.01
             (ex_store [vec [0]] [vec [0]]) 2%nat 0%nat 1%nat
             [vec [0]] [vec [0]] [vec [1]] [vec [1]] ZeroDivisionError
             (ex_store [vec [1]] [vec [0.0010000000000000009]])).
    + apply ex_store_holds.
    + vm_compute. reflexivity.
Defined.

(** X5: two parameters, two entries in [state["m"]], one in [state["v"]]. *)
Lemma adamw_short_v_leaves_m_ahead_witness :
  ∃ ms' vs',
    adamw [vec [1]; vec [2]] [vec [1]; vec [1]] 0.1 (Some 2%nat) 0.9 0.999
          1e-8 1 0.01 (ex_store [vec [0]; vec [0]] [vec [0]])
      = (Raise IndexError,
         with_moments 0%nat 1%nat (ms', vs')
           (ex_store [vec [0]; vec [0]] [vec [0]])) ∧
    ms' !! 1%nat = Some (vec [0.099999999999999978]) ∧
    length vs' = 1%nat.
Proof.
  destruct (adamw_short_v_leaves_m_ahead (F := float) 0.1 0.9 0.999 1e-8 1
              0.01 (ex_store [vec [0]; vec [0]] [vec [0]]) 2%nat 0%nat 1%nat
              [vec [0]; vec [0]] [vec [0]]
              [vec [1]; vec [2]] [vec [1]; vec [1]] 1%nat
              (vec [2]) (vec [1]) (vec [0]) (vec [0.099999999999999978])
              0.9 0.999)
    as (ms' & vs' & Hrun & Hm & _ & Hlv & _).
  - apply ex_store_holds.
  - reflexivity.
  - reflexivity.
  - aligned_cases.
  - reflexivity.
  - vm_compute. reflexivity.
  - reflexivity.
  - reflexivity.
  - reflexivity.
  - exists ms', vs'. split; [exact Hrun|]. split; [exact Hm|exact Hlv].
Defined.

(** X6: one scalar parameter, the list [[0.0]] under both keys. The shared
    entry ends as [0.999*0.1 + 0.001*1]. *)
Lemma adamw_one_list_for_both_moments_witness :
  ∃ u ls',
    adamw [vec [1]] [vec [1]] 0.1 (Some 1%nat) 0.9 0.999 1e-8 1 0.01
          (shared_store [vec [0]])
      = (Ok ([u], 1%nat), <[0%nat := py.List ls']> (shared_store [vec [0]])) ∧
    ls' !! 0%nat = Some (vec [0.10089999999999998]) ∧
    u = vec [0.98895510080692184].
Proof.
  destruct (adamw_one_list_for_both_moments (F := float) 0.1 0.9 0.999 1e-8 1
              0.01 (shared_store [vec [0]]) 1%nat
              (<["m" := 0%nat]> (<["v" := 0%nat]> ∅)) 0%nat [vec [0]]
              [vec [1]] [vec [1]] 0.9 0.999)
    as (ups & ls' & Hrun & Hlen & Hat).
  - vm_compute. reflexivity.
  - vm_compute. reflexivity.
  - vm_compute. reflexivity.
  - vm_compute. reflexivity.
  - intros i Hi. destruct i as [|i]; [|exfalso; simpl in Hi; lia].
    eexists _, _, _. repeat split; reflexivity.
  - reflexivity.
  - reflexivity.
  - destruct (Hat 0%nat (vec [1]) (vec [1]) (vec [0]) eq_refl eq_refl eq_refl)
      as [Hl Hu].
    destruct ups as [|u [|u1 ups]]; simpl in Hlen; try discriminate Hlen.
    simpl in Hu. injection Hu as ->.
    eexists _, ls'. split; [exact Hrun|].
    split; [rewrite Hl|]; vm_compute; reflexivity.
Defined.

(** X7: the first step of the specification's example, in an empty store. *)
Lemma adamw_None_first_step_witness :
  ∃ u s h',
    adamw [vec [1]] [vec [1]] 0.1 None 0.9 0.999 1e-8 1 0 ∅
      = (Ok ([u], s), h') ∧
    np.shape u = [1%nat].
Proof.
  destruct (adamw_None_first_step (F := float) 0.1 0.9 0.999 1e-8 0 1 ∅
              [vec [1]] [vec [1]] 0.9 0.999)
    as (ups & s & lm & lv & ms' & vs' & h' & Hrun & _ & _ & Hlen & Hat).
  - repeat constructor.
  - split; [reflexivity|].
    intros [|[|i]] p g Hp Hg; simpl in Hp, Hg; try discriminate Hp.
    injection Hp as <-. injection Hg as <-. split; reflexivity.
  - reflexivity.
  - reflexivity.
  - destruct (Hat 0%nat (vec [1]) (vec [1]) eq_refl eq_refl) as (_ & _ & Hu).
    destruct ups as [|u [|u1 ups]]; simpl in Hlen; try discriminate Hlen.
    simpl in Hu. injection Hu as ->.
    eexists _, s, h'. split; [exact Hrun|reflexivity].
Defined.

(** X8: two steps, [t = 1] then [t = 2], on one scalar parameter. *)
Lemma adamw_next_step_witness :
  ∃ ups1 h1 ups2 h2,
    adamw [vec [1]] [vec [1]] 0.1 (Some 2%nat) 0.9 0.999 1e-8 1 0.01
          (ex_store [vec [0]] [vec [0]]) = (Ok (ups1, 2%nat), h1) ∧
    adamw ups1 [vec [-3]] 0.1 (Some 2%nat) 0.9 0.999 1e-8 2 0.01 h1
      = (Ok (ups2, 2%nat), h2) ∧
    length ups2 = 1%nat.
Proof.
  destruct (adamw_next_step (F := float) 0.1 0.9 0.999 1e-8 0.01 1 2
              (ex_store [vec [0]] [vec [0]]) 2%nat 0%nat 1%nat
              [vec [0]] [vec [0]] [vec [1]] [vec [1]] [vec [-3]]
              0.9 0.999 0.81 0.998001)
    as (ups1 & ms1 & vs1 & h1 & ups2 & ms2 & vs2 & h2 & Hrun1 & _ & _ & Hrun2
        & _ & Hlen & _).
  - apply ex_store_holds.
  - reflexivity.
  - aligned_cases.
  - split; [reflexivity|].
    intros [|[|i]] p g Hp Hg; simpl in Hp, Hg; try discriminate Hp.
    injection Hp as <-. injection Hg as <-. split; reflexivity.
  - reflexivity.
  - reflexivity.
  - vm_compute. reflexivity.
  - vm_compute. reflexivity.
  - exists ups1, h1, ups2, h2.
    split; [exact Hrun1|]. split; [exact Hrun2|exact Hlen].
Defined.
